(** * Traffic junction client: the shared state endpoint and the sync engine

    A shallow embedding of

    - [app/api/state/route.ts]            (module [Route]),
    - [app/api/state/simplified-route.ts] (module [SimplifiedRoute]),
    - [lib/db-adapter.ts]                 (modules [Adapter], [ServerStorage]
                                           and [LocalStorage]),
    - [lib/sync-service.ts]               (module [Sync]),
    - [scripts/verify-deployment.ts]      (module [Verify]),
    - [app/test/page.tsx]                 (module [IpConfig]),

    together with the fragment of JavaScript they run on (module [JS]):
    JSON values, truthiness, [typeof], property reads and writes, object
    spread and the relational operator [>], with the TypeError it throws
    when an operand cannot be converted to a primitive.

    Conventions.  Numbers are integers ([Z]): the only numbers the code
    computes with are millisecond timestamps.  Strings are sequences of
    bytes, which for ASCII text are the code units JavaScript compares.
    [Date.now()] is an input of
    each operation (the reading of the clock when the operation runs).  An
    operation that awaits the adapter is taken as one step: interleavings of
    two requests around an [await] are outside this development.  What a
    handler logs with [console.error] is not part of the model. *)

From Stdlib Require Import ZArith Lia.
From stdpp Require Import base option list gmap strings pretty.

Set Warnings "-register-all".
Local Open Scope Z_scope.

(* ===================================================================== *)
(** * JavaScript values                                                   *)
(* ===================================================================== *)

Module JS.

(** What [request.json()], [JSON.parse] and object literals produce.  An
    array carries, next to its elements, the own properties that were
    assigned to it afterwards ([arr.lastUpdated = ...] is legal). *)
Inductive value : Type :=
| VUndefined
| VNull
| VBool (b : bool)
| VNum (n : Z)
| VStr (s : string)
| VArr (elems : list value) (own : gmap string value)
| VObj (own : gmap string value).

#[export] Instance value_inhabited : Inhabited value := populate VUndefined.

(** The [typeof] operator. *)
Definition typeof (v : value) : string :=
  match v with
  | VUndefined => "undefined"
  | VNull => "object"
  | VBool _ => "boolean"
  | VNum _ => "number"
  | VStr _ => "string"
  | VArr _ _ => "object"
  | VObj _ => "object"
  end.

(** ToBoolean: what [!v], [v || w] and [if (v)] look at. *)
Definition truthy (v : value) : bool :=
  match v with
  | VUndefined => false
  | VNull => false
  | VBool b => b
  | VNum n => negb (n =? 0)
  | VStr s => negb (String.eqb s "")
  | VArr _ _ => true
  | VObj _ => true
  end.

(** [v || w] *)
Definition or_else (v w : value) : value := if truthy v then v else w.

(** The object literal [{ k1: v1, ..., kn: vn }], the keys distinct. *)
Definition object (fields : list (string * value)) : value :=
  VObj (list_to_map fields).

(** The elements of an array as properties ["0"], ["1"], ... *)
Definition index_props (l : list value) : gmap string value :=
  list_to_map (imap (fun (i : nat) v => (pretty i, v)) l).

(** The characters of a string as one-character strings. *)
Definition chars (s : string) : list value :=
  (fun c => VStr (String c EmptyString)) <$> String.list_ascii_of_string s.

(** The own enumerable string-keyed properties of a value: what the spread
    [{ ...v }] copies.  Spreading [null], [undefined], a number or a boolean
    copies nothing. *)
Definition own_props (v : value) : gmap string value :=
  match v with
  | VObj own => own
  | VArr elems own => own ∪ index_props elems
  | VStr s => index_props (chars s)
  | _ => ∅
  end.

(** The property read [v.k] on a value other than [null] and [undefined],
    for a name [k] that no prototype defines and that is not ["length"]
    (the code reads [lastUpdated] only; the statements below also read
    [controlMode]).  A missing property reads as [undefined].  On [null]
    and [undefined] the read throws a TypeError: the handlers read only
    after a truthiness check, and [Sync.updateState], which does not
    check, has that case written out. *)
Definition prop (v : value) (k : string) : value :=
  default VUndefined (own_props v !! k).

(** The assignment [v.k = x], for a name [k] that is not an array index.
    The code assigns only after it has checked that [v] is truthy and of
    type ["object"]; on the other values [assign] leaves [v] as it is. *)
Definition assign (v : value) (k : string) (x : value) : value :=
  match v with
  | VObj own => VObj (<[k := x]> own)
  | VArr elems own => VArr elems (<[k := x]> own)
  | _ => v
  end.

(** [v === "literal"] *)
Definition strict_equal_string (v : value) (literal : string) : bool :=
  match v with
  | VStr s => String.eqb s literal
  | _ => false
  end.

(** Line feed, for the frames of an event stream. *)
Definition LF : string := String (Ascii.ascii_of_nat 10) EmptyString.

(** ToString of a value made of JSON data; [None] when it throws a
    TypeError.  No property of such a value is callable.  An own
    [toString] therefore hides the inherited method and leaves nothing to
    call; without it a plain object prints as [[object Object]], and an
    array joins the strings of its elements with commas ([null] and
    [undefined] print as nothing there) unless an own [join] hides
    [Array.prototype.join], in which case it prints as [[object Array]].
    A number prints in decimal, as JavaScript prints an integer below
    10^21. *)
Fixpoint ToString (v : value) : option string :=
  match v with
  | VUndefined => Some "undefined"
  | VNull => Some "null"
  | VBool b => Some (if b then "true" else "false")
  | VNum n => Some (pretty n)
  | VStr s => Some s
  | VArr elems own =>
      if bool_decide (is_Some (own !! "toString")) then None
      else if bool_decide (is_Some (own !! "join")) then Some "[object Array]"
      else String.concat ","
             <$> mapM (fun e => match e with
                                | VUndefined | VNull => Some EmptyString
                                | _ => ToString e
                                end) elems
  | VObj own =>
      if bool_decide (is_Some (own !! "toString")) then None
      else Some "[object Object]"
  end.

(** ToPrimitive with hint number; [None] when it throws a TypeError.
    [valueOf] of an array or of a plain object is not callable or returns
    the object itself, so [toString] decides. *)
Definition ToPrimitive (v : value) : option value :=
  match v with
  | VArr _ _ | VObj _ => VStr <$> ToString v
  | _ => Some v
  end.

(** The built-ins the code reaches that are ECMAScript's, not this
    repository's, and that the integers of this development cannot
    compute: the number a string denotes (reached only when a
    [lastUpdated] is a string, an array or an object) and the text
    [JSON.stringify] writes.  The development is parametric in them. *)
Class Builtins := {
  (** StringToNumber; [None] is NaN *)
  StringToNumber : string -> option Z;
  (** [JSON.stringify] *)
  JSON_stringify : value -> string
}.

Section Relational.
Context `{!Builtins}.

(** ToNumber of a primitive; [None] is NaN.  ToPrimitive never hands it
    an array or an object. *)
Definition ToNumber (p : value) : option Z :=
  match p with
  | VUndefined => None
  | VNull => Some 0
  | VBool b => Some (if b then 1 else 0)
  | VNum n => Some n
  | VStr s => StringToNumber s
  | VArr _ _ | VObj _ => None
  end.

(** IsLessThan; [None] when converting an operand throws.  Two strings
    compare unit by unit (byte by byte here, which is JavaScript's order
    on ASCII text), anything else as numbers, and a comparison with NaN
    is not true. *)
Definition IsLessThan (x y : value) : option bool :=
  px ← ToPrimitive x;
  py ← ToPrimitive y;
  Some match px, py with
       | VStr a, VStr b => String.ltb a b
       | _, _ =>
           match ToNumber px, ToNumber py with
           | Some a, Some b => a <? b
           | _, _ => false
           end
       end.

(** [x > y]; [None] when it throws a TypeError. *)
Definition GreaterThan (x y : value) : option bool := IsLessThan y x.

(** [x > y] is evaluated to [true]: it does not throw and [x] is the
    greater. *)
Definition greater (x y : value) : bool := default false (GreaterThan x y).

End Relational.

End JS.

Import JS.

(* ===================================================================== *)
(** * HTTP responses                                                      *)
(* ===================================================================== *)

(** [NextResponse.json(body, { status })]; the status is 200 when the
    code gives none.  [body] is the value handed to [NextResponse.json]. *)
Record response := Response { status : nat; body : value }.

Definition json (b : value) : response := Response 200 b.
Definition failure (code : nat) (message : string) : response :=
  Response code (object [("error", VStr message)]).

(* ===================================================================== *)
(** * lib/db-adapter.ts                                                   *)
(* ===================================================================== *)

Module Adapter.

(** [interface DbAdapter]: [getState] resolves to a document or [null],
    [saveState] to a boolean.  [S] is what the backend holds.  Both
    classes of the file catch every exception inside these methods, so
    neither method throws.  The handler of route.ts and the engine reach
    their backend through this interface only, and what is proved of them
    below is proved for every implementation of it. *)
Class DbAdapter (S : Type) := {
  getState : S -> value;
  saveState : S -> value -> bool * S
}.

(** A backend that keeps what it is given: a successful save is what the
    next read returns, and a failed save leaves the stored document as it
    was. *)
Class Durable (S : Type) `{!DbAdapter S} := {
  read_after_save : forall s d s', saveState s d = (true, s') -> getState s' = d;
  read_after_failed_save :
    forall s d s', saveState s d = (false, s') -> getState s' = getState s
}.

(** Modelled from the spec: the in-process, volatile single-document store
    of section 4.2, which lib/db-adapter.ts does not define.  It holds the
    document itself, [null] before the first save, and a save always
    succeeds. *)
Definition volatile := value.

#[export] Instance volatile_adapter : DbAdapter volatile := {
  getState s := s;
  saveState _ d := (true, d)
}.

(** [LocalStorageAdapter] where there is no [window] (on the server):
    [getState] returns [null] and [saveState] returns [false]. *)
Definition windowless := unit.

#[export] Instance windowless_adapter : DbAdapter windowless := {
  getState _ := VNull;
  saveState s _ := (false, s)
}.

End Adapter.

Import Adapter.

(* ===================================================================== *)
(** * app/api/state/simplified-route.ts                                   *)
(* ===================================================================== *)

Module SimplifiedRoute.
Section Handlers.
Context `{!Builtins}.

(** [let currentState: SyncedState | null = null] *)
Definition initial : value := VNull.

(** [GET]: the stored document, or [{}] when there is none. *)
Definition GET (currentState : value) : response :=
  json (or_else currentState (object [])).

(** [POST].  [request] is the body as [request.json()] parses it, [None]
    when it is not JSON (the SyntaxError lands in the [catch]); [now] is
    [Date.now()].  A TypeError thrown by the comparison lands in the
    [catch] as well.  Returns the response and the new [currentState]. *)
Definition POST (request : option value) (now : Z) (currentState : value)
  : response * value :=
  match request with
  | None => (failure 500 "Failed to update state", currentState)
  | Some newState =>
      if negb (truthy newState) || bool_decide (typeof newState <> "object")
      then (failure 400 "Invalid state data", currentState)
      else
        match (if negb (truthy currentState) then Some true
               else GreaterThan (prop newState "lastUpdated")
                                (prop currentState "lastUpdated")) with
        | None => (failure 500 "Failed to update state", currentState)
        | Some true =>
            let newState := assign newState "lastUpdated" (VNum now) in
            let currentState := newState in
            (json (object [("success", VBool true); ("state", currentState)]),
             currentState)
        | Some false =>
            (json (object [("success", VBool true); ("state", currentState)]),
             currentState)
        end
  end.

End Handlers.
End SimplifiedRoute.

(* ===================================================================== *)
(** * app/api/state/route.ts                                              *)
(* ===================================================================== *)

Module Route.

(** [client.write(data)] on a server-push stream. *)
Inductive event := Write (client : nat) (data : string).

(** [const clients = new Map()]: client id to stream, in insertion order.
    Nothing in the module calls [clients.set]: the map stays empty. *)
Definition clients : list (string * nat) := [].

Section Handlers.
Context `{!Builtins} {S : Type} `{!DbAdapter S}.

(** [notifyClients]: one frame with the serialised state per entry. *)
Definition notifyClients (registry : list (string * nat)) (state : value)
  : list event :=
  (fun entry => Write entry.2 ("data: " +:+ JSON_stringify state +:+ LF +:+ LF))
    <$> registry.

(** [GET]: the stored document, or [{}] when there is none. *)
Definition GET (s : S) : response :=
  json (or_else (getState s) (object [])).

(** [POST], with the registry it broadcasts to as an argument ([clients]
    above is the one of the module).  A TypeError thrown by the comparison
    lands in the [catch], like a body that is not JSON.  Returns the
    response, the backend afterwards and the frames written. *)
Definition POST (registry : list (string * nat)) (request : option value)
  (now : Z) (s : S) : response * S * list event :=
  match request with
  | None => (failure 500 "Failed to update state", s, [])
  | Some newState =>
      if negb (truthy newState) || bool_decide (typeof newState <> "object")
      then (failure 400 "Invalid state data", s, [])
      else
        let currentState := getState s in
        match (if negb (truthy currentState) then Some true
               else GreaterThan (prop newState "lastUpdated")
                                (prop currentState "lastUpdated")) with
        | None => (failure 500 "Failed to update state", s, [])
        | Some true =>
            let newState := assign newState "lastUpdated" (VNum now) in
            let '(success, s') := saveState s newState in
            if negb success
            then (failure 500 "Failed to update state", s', [])
            else (json (object [("success", VBool true); ("state", newState)]),
                  s', notifyClients registry newState)
        | Some false =>
            (json (object [("success", VBool true); ("state", newState)]), s, [])
        end
  end.

End Handlers.
End Route.

(* ===================================================================== *)
(** * lib/sync-service.ts                                                 *)
(* ===================================================================== *)

Module Sync.

(** [const defaultState], built when the module is loaded at time
    [loaded]. *)
Definition timePeriod (red yellow greenLeft greenStraight greenRight : Z) : value :=
  object [("red", VNum red); ("yellow", VNum yellow); ("greenLeft", VNum greenLeft);
          ("greenStraight", VNum greenStraight); ("greenRight", VNum greenRight)].

Definition timePeriods : value :=
  object [("P1", timePeriod 60 5 30 25 20); ("P2", timePeriod 60 5 20 30 25);
          ("P3", timePeriod 60 5 20 25 30); ("P4", timePeriod 60 5 25 20 30)].

Definition timeZone (id : Z) (name startTime endTime sequence : string) : value :=
  object [("id", VNum id); ("name", VStr name); ("startTime", VStr startTime);
          ("endTime", VStr endTime); ("sequence", VStr sequence);
          ("timePeriods", timePeriods)].

Definition priority (greenLeft greenStraight greenRight : Z) : value :=
  object [("greenLeft", VNum greenLeft); ("greenStraight", VNum greenStraight);
          ("greenRight", VNum greenRight)].

Definition defaultState (loaded : Z) : value :=
  object
    [("signalStatus",
      object [("P1", VStr "red"); ("P2", VStr "red"); ("P3", VStr "red"); ("P4", VStr "red")]);
     ("timeZones",
      VArr [timeZone 1 "Time Zone 1" "08:00" "10:00" "1,2,3,4,5,6,7";
            timeZone 2 "Time Zone 2" "16:00" "19:00" "8,9,10,11,12,13,14"] ∅);
     ("priorities",
      object [("P1", priority 1 2 3); ("P2", priority 3 1 2);
              ("P3", priority 3 2 1); ("P4", priority 2 3 1)]);
     ("ipAddresses",
      object [("P1A", VStr "192.168.1.6"); ("P1B", VStr "192.168.1.7");
              ("P2A", VStr "192.168.1.8"); ("P2B", VStr "192.168.1.9");
              ("P3A", VStr "192.168.1.10"); ("P3B", VStr "192.168.1.11");
              ("P4A", VStr "192.168.1.12"); ("P4B", VStr "192.168.1.13")]);
     ("controlMode", VStr "auto");
     ("lastUpdated", VNum loaded);
     ("lastUpdatedBy", VStr "system")].

(** A registered callback is a function; the model knows it by its
    identity (what [cb !== callback] compares) and records each call. *)
Definition callback := nat.

Inductive event :=
| Call (cb : callback) (arg : value)   (* [callback(this.state)] *)
| Send (data : string).                (* [this.websocket.send(data)] *)

(** The fields of [class SyncService] that the methods below read or
    write.  [socketOpen] stands for
    [this.websocket && this.websocket.readyState === WebSocket.OPEN]. *)
Record SyncService := {
  clientId : string;
  state : value;
  socketOpen : bool;
  onStateChangeCallbacks : list callback;
  isInitialized : bool
}.

Definition with_state (v : value) (this : SyncService) : SyncService :=
  {| clientId := clientId this; state := v; socketOpen := socketOpen this;
     onStateChangeCallbacks := onStateChangeCallbacks this;
     isInitialized := isInitialized this |}.

Definition with_callbacks (l : list callback) (this : SyncService) : SyncService :=
  {| clientId := clientId this; state := state this; socketOpen := socketOpen this;
     onStateChangeCallbacks := l; isInitialized := isInitialized this |}.

Definition with_socket (b : bool) (this : SyncService) : SyncService :=
  {| clientId := clientId this; state := state this; socketOpen := b;
     onStateChangeCallbacks := onStateChangeCallbacks this;
     isInitialized := isInitialized this |}.

Definition with_initialized (b : bool) (this : SyncService) : SyncService :=
  {| clientId := clientId this; state := state this; socketOpen := socketOpen this;
     onStateChangeCallbacks := onStateChangeCallbacks this; isInitialized := b |}.

Definition with_clientId (id : string) (this : SyncService) : SyncService :=
  {| clientId := id; state := state this; socketOpen := socketOpen this;
     onStateChangeCallbacks := onStateChangeCallbacks this;
     isInitialized := isInitialized this |}.

(** [new SyncService(config)] before [initialize] has run. *)
Definition create (id : string) (loaded : Z) : SyncService :=
  {| clientId := id; state := defaultState loaded; socketOpen := false;
     onStateChangeCallbacks := []; isInitialized := false |}.

Definition nullish (v : value) : bool :=
  match v with VUndefined | VNull => true | _ => false end.

Section Methods.
Context `{!Builtins} {S : Type} `{!DbAdapter S}.

(** [notifyStateChange]: every registered callback, in order of
    registration, with [this.state]. *)
Definition notifyStateChange (this : SyncService) : list event :=
  (fun cb => Call cb (state this)) <$> onStateChangeCallbacks this.

(** [updateState]; [None] when it throws: reading [lastUpdated] of
    [null] or [undefined] does, and so does a comparison whose operand
    cannot be converted. *)
Definition updateState (newState : value) (this : SyncService)
  : option (SyncService * list event) :=
  if nullish newState || nullish (state this) then None
  else
    match GreaterThan (prop newState "lastUpdated")
                      (prop (state this) "lastUpdated") with
    | None => None
    | Some true => let this := with_state newState this in
                   Some (this, notifyStateChange this)
    | Some false => Some (this, [])
    end.

(** [try { this.updateState(v) } catch (error) { console.error(...) }]:
    how every caller of [updateState] runs it. *)
Definition guarded (newState : value) (this : SyncService)
  : SyncService * list event :=
  match updateState newState this with
  | Some r => r
  | None => (this, [])
  end.

(** [fetchState], the polling tick. *)
Definition fetchState (this : SyncService) (s : S) : SyncService * list event :=
  let state := getState s in
  if truthy state then guarded state this else (this, []).

(** [eventSource.onmessage]; [data] is [JSON.parse(event.data)], [None]
    when the parse throws. *)
Definition sse_onmessage (data : option value) (this : SyncService)
  : SyncService * list event :=
  match data with
  | Some data => guarded data this
  | None => (this, [])
  end.

(** [websocket.onmessage] *)
Definition ws_onmessage (data : option value) (this : SyncService)
  : SyncService * list event :=
  match data with
  | Some data =>
      if nullish data then (this, [])
      else if strict_equal_string (prop data "type") "state_update"
      then guarded (prop data "state") this
      else (this, [])
  | None => (this, [])
  end.

(** The part of [initialize] that concerns the document: the saved state,
    when there is one, replaces the default. *)
Definition initialize (this : SyncService) (s : S) : SyncService * list event :=
  if isInitialized this then (this, [])
  else
    let this := with_initialized true this in
    let savedState := getState s in
    if truthy savedState
    then let this := with_state savedState this in (this, notifyStateChange this)
    else (this, []).

(** [updateConfig], for the one configuration field modelled. *)
Definition updateConfig (id : option string) (this : SyncService) (s : S)
  : SyncService * list event :=
  let this := match id with Some id => with_clientId id this | None => this end in
  let this := with_socket false this in
  let this := with_initialized false this in
  initialize this s.

(** [updateStateAndPublish]; returns what the promise resolves to, the
    engine and the backend afterwards, and what was called and sent. *)
Definition updateStateAndPublish (partialState : value) (now : Z)
  (this : SyncService) (s : S) : bool * SyncService * S * list event :=
  let newState :=
    VObj (<["lastUpdatedBy" := VStr (clientId this)]>
            (<["lastUpdated" := VNum now]>
               (own_props partialState ∪ own_props (state this)))) in
  let '(saveSuccess, s') := saveState s newState in
  if negb saveSuccess then (false, this, s', [])
  else
    let sent :=
      if socketOpen this
      then [Send (JSON_stringify
                    (object [("type", VStr "state_update"); ("state", newState);
                             ("clientId", VStr (clientId this))]))]
      else [] in
    let this := with_state newState this in
    (true, this, s', sent ++ notifyStateChange this).

(** The function [onStateChange] returns. *)
Definition unsubscribe (cb : callback) (this : SyncService) : SyncService :=
  with_callbacks (filter (fun c => c <> cb) (onStateChangeCallbacks this)) this.

(** [onStateChange]: the engine afterwards, the calls made before it
    returns, and the function it returns. *)
Definition onStateChange (cb : callback) (this : SyncService)
  : SyncService * list event * (SyncService -> SyncService) :=
  let this := with_callbacks (onStateChangeCallbacks this ++ [cb]) this in
  (this, [Call cb (state this)], unsubscribe cb).

(** What can happen to an engine, one at a time. *)
Inductive action :=
| Initialize
| UpdateConfig (id : option string)
| Tick
| SseMessage (data : option value)
| WsMessage (data : option value)
| Socket (open : bool)
| Publish (partialState : value) (now : Z)
| Subscribe (cb : callback)
| Unsubscribe (cb : callback).

Definition step (a : action) (this : SyncService) (s : S)
  : SyncService * S * list event :=
  match a with
  | Initialize => let '(this, evs) := initialize this s in (this, s, evs)
  | UpdateConfig id => let '(this, evs) := updateConfig id this s in (this, s, evs)
  | Tick => let '(this, evs) := fetchState this s in (this, s, evs)
  | SseMessage data => let '(this, evs) := sse_onmessage data this in (this, s, evs)
  | WsMessage data => let '(this, evs) := ws_onmessage data this in (this, s, evs)
  | Socket open => (with_socket open this, s, [])
  | Publish partialState now =>
      let '(_, this, s, evs) := updateStateAndPublish partialState now this s in
      (this, s, evs)
  | Subscribe cb => let '(this, evs, _) := onStateChange cb this in (this, s, evs)
  | Unsubscribe cb => (unsubscribe cb this, s, [])
  end.

Fixpoint run (l : list action) (this : SyncService) (s : S)
  : SyncService * S * list event :=
  match l with
  | [] => (this, s, [])
  | a :: l =>
      let '(this, s, evs) := step a this s in
      let '(this, s, evs') := run l this s in
      (this, s, evs ++ evs')
  end.

End Methods.
End Sync.

(* ===================================================================== *)
(** * JSON on the wire                                                    *)
(* ===================================================================== *)

Module Json.

(** What [JSON.parse(JSON.stringify(v))] yields: what arrives when [v] is
    sent as the body of a request or of a response.  [JSON.stringify]
    returns no text for [undefined] ([None]); inside an array [undefined]
    is written as [null], inside an object a property whose value is
    [undefined] is left out, and the properties assigned to an array are
    not written. *)
Fixpoint wire (v : value) : option value :=
  match v with
  | VUndefined => None
  | VArr elems _ => Some (VArr ((fun e => default VNull (wire e)) <$> elems) ∅)
  | VObj own => Some (VObj (omap wire own))
  | _ => Some v
  end.

End Json.

(* ===================================================================== *)
(** * lib/db-adapter.ts: ServerStorageAdapter                             *)
(* ===================================================================== *)

Module ServerStorage.

(** What [fetch("/api/state")] reaches: the handlers of simplified-route.ts
    with their [currentState], the reading of the server's clock when it
    handles a request, and whether the network lets a request through. *)
Record server := { reachable : bool; clock : Z; currentState : value }.

Definition with_currentState (v : value) (srv : server) : server :=
  {| reachable := reachable srv; clock := clock srv; currentState := v |}.

Definition with_clock (t : Z) (srv : server) : server :=
  {| reachable := reachable srv; clock := t; currentState := currentState srv |}.

(** [response.ok] *)
Definition ok (r : response) : bool :=
  (200 <=? status r)%nat && (status r <=? 299)%nat.

(** [await response.json()]; [None] when it throws. *)
Definition response_json (r : response) : option value := Json.wire (body r).

Section Fetch.
Context `{!Builtins}.

(** [await fetch(apiEndpoint)]; [None] when the promise rejects. *)
Definition fetch_get (srv : server) : option response :=
  if reachable srv then Some (SimplifiedRoute.GET (currentState srv)) else None.

(** [await fetch(apiEndpoint, { method: "POST", body: JSON.stringify(state) })] *)
Definition fetch_post (state : value) (srv : server) : option response * server :=
  if reachable srv
  then
    let '(r, cur) :=
      SimplifiedRoute.POST (Json.wire state) (clock srv) (currentState srv) in
    (Some r, with_currentState cur srv)
  else (None, srv).

(** [ServerStorageAdapter.getState] *)
Definition getState (srv : server) : value :=
  match fetch_get srv with
  | None => VNull
  | Some response =>
      if negb (ok response) then VNull
      else match response_json response with
           | Some state => state
           | None => VNull
           end
  end.

(** [ServerStorageAdapter.saveState] *)
Definition saveState (srv : server) (state : value) : bool * server :=
  match fetch_post state srv with
  | (None, srv) => (false, srv)
  | (Some response, srv) =>
      if negb (ok response) then (false, srv) else (true, srv)
  end.

#[export] Instance server_adapter : DbAdapter server := {
  Adapter.getState := getState;
  Adapter.saveState := saveState
}.

End Fetch.
End ServerStorage.

(* ===================================================================== *)
(** * lib/db-adapter.ts: LocalStorageAdapter in a browser                 *)
(* ===================================================================== *)

Module LocalStorage.

(** The browser's [localStorage] as [LocalStorageAdapter] uses it: the
    item under [storageKey], absent or the text [JSON.stringify] wrote for
    the value recorded here, and whether [getItem] and [setItem] return or
    throw (storage can be denied, and [setItem] throws when the quota is
    exceeded). *)
Record browser := { readable : bool; writable : bool; item : option value }.

(** [LocalStorageAdapter.getState] where there is a [window].  The text of
    a stored value is never empty, and [JSON.parse] throws on the text
    written for [undefined]. *)
Definition getState (b : browser) : value :=
  if negb (readable b) then VNull
  else match item b with
       | None => VNull
       | Some v => default VNull (Json.wire v)
       end.

(** [LocalStorageAdapter.saveState] where there is a [window]. *)
Definition saveState (b : browser) (state : value) : bool * browser :=
  if writable b
  then (true, {| readable := readable b; writable := writable b;
                 item := Some state |})
  else (false, b).

#[export] Instance browser_adapter : DbAdapter browser := {
  Adapter.getState := getState;
  Adapter.saveState := saveState
}.

End LocalStorage.

(* ===================================================================== *)
(** * scripts/verify-deployment.ts                                        *)
(* ===================================================================== *)

Module Verify.
Import ServerStorage.

Section Script.
Context `{!Builtins}.

(** [originalState.controlMode === "auto" ? "manual" : "auto"] *)
Definition toggled (originalState : value) : string :=
  if strict_equal_string (prop originalState "controlMode") "auto"
  then "manual" else "auto".

(** [testStatePersistence].  [now1] and [now2] are the two readings of the
    script's clock; the server's clock reads [clock srv] when it handles
    the update and [later] when it handles the restore.  Returns what the
    function returns and the server afterwards. *)
Definition testStatePersistence (now1 now2 later : Z) (srv : server)
  : bool * server :=
  match fetch_get srv with
  | None => (false, srv)
  | Some stateResponse =>
  if negb (ok stateResponse) then (false, srv) else
  match response_json stateResponse with
  | None => (false, srv)
  | Some originalState =>
  if Sync.nullish originalState then (false, srv) else
  let newState :=
    VObj (<["lastUpdatedBy" := VStr "verification-script"]>
            (<["lastUpdated" := VNum now1]>
               (<["controlMode" := VStr (toggled originalState)]>
                  (own_props originalState)))) in
  match fetch_post newState srv with
  | (None, srv) => (false, srv)
  | (Some updateResponse, srv) =>
  if negb (ok updateResponse) then (false, srv) else
  match fetch_get srv with
  | None => (false, srv)
  | Some updatedStateResponse =>
  if negb (ok updatedStateResponse) then (false, srv) else
  match response_json updatedStateResponse with
  | None => (false, srv)
  | Some updatedState =>
  if Sync.nullish updatedState then (false, srv) else
  if negb (strict_equal_string (prop updatedState "controlMode")
             (toggled originalState))
  then (false, srv)
  else
    let restored :=
      VObj (<["lastUpdatedBy" := VStr "verification-script"]>
              (<["lastUpdated" := VNum now2]> (own_props originalState))) in
    match fetch_post restored (with_clock later srv) with
    | (None, srv) => (false, srv)
    | (Some _, srv) => (true, srv)
    end
  end end end end end.

End Script.
End Verify.

(* ===================================================================== *)
(** * app/test/page.tsx: IpConfigPanel                                    *)
(* ===================================================================== *)

Module IpConfig.

(** The regular expressions [ipPattern] is built from.  A character class
    is a range of character codes; a literal is the range of one code. *)
Inductive regex :=
| Class (lo hi : nat)
| Cat (r1 r2 : regex)
| Alt (r1 r2 : regex)
| Opt (r : regex).

Definition code (c : Ascii.ascii) : nat := Ascii.nat_of_ascii c.

(** Matching as the engine does it, by backtracking: [accept r s k] tries
    the ways [r] can match a prefix of [s], alternatives from left to
    right and an optional part first with and then without it, and asks
    [k] about what is left. *)
Fixpoint accept (r : regex) (s : string) (k : string -> bool) : bool :=
  match r with
  | Class lo hi =>
      match s with
      | String c s' => (lo <=? code c)%nat && (code c <=? hi)%nat && k s'
      | EmptyString => false
      end
  | Cat r1 r2 => accept r1 s (fun s' => accept r2 s' k)
  | Alt r1 r2 => accept r1 s k || accept r2 s k
  | Opt r => accept r s k || k s
  end.

(** A literal character, by its code: 50 is [2], 53 is [5], 46 is [.]. *)
Definition lit (n : nat) : regex := Class n n.

(** [[0-9]] *)
Definition digit : regex := Class 48 57.

(** [(25[0-5]|2[0-4][0-9]|[01]?[0-9][0-9]?)] *)
Definition octet : regex :=
  Alt (Cat (lit 50) (Cat (lit 53) (Class 48 53)))
      (Alt (Cat (lit 50) (Cat (Class 48 52) digit))
           (Cat (Opt (Class 48 49)) (Cat digit (Opt digit)))).

(** [\.] *)
Definition dot : regex := lit 46.

(** The pattern between [^] and [$]. *)
Definition ipPattern : regex :=
  Cat octet (Cat dot (Cat octet (Cat dot (Cat octet (Cat dot octet))))).

(** [$]: the end of the input. *)
Definition at_end (s : string) : bool :=
  match s with EmptyString => true | String _ _ => false end.

(** [validateIpAddress]: [ipPattern.test(ip)], anchored at both ends. *)
Definition validateIpAddress (ip : string) : bool := accept ipPattern ip at_end.

(** The state of the panel that [validateAllIps] and [handleSave] read and
    set, and the toasts shown. *)
Record panel := {
  ipAddresses : gmap string string;
  validationErrors : gmap string string;
  confirmDialogOpen : bool;
  toasts : list string
}.

(** The [forEach] of [validateAllIps] over [Object.entries(ipAddresses)]:
    the errors collected and whether every address passed. *)
Definition check_entries (entries : list (string * string))
  : gmap string string * bool :=
  foldl (fun acc entry =>
           if negb (validateIpAddress entry.2)
           then (<[entry.1 := "Invalid IP address format"]> acc.1, false)
           else acc)
        (∅, true) entries.

(** [validateAllIps]: the panel afterwards and the result. *)
Definition validateAllIps (p : panel) : panel * bool :=
  let '(errors, isValid) := check_entries (map_to_list (ipAddresses p)) in
  let ips := (map_to_list (ipAddresses p)).*2 in
  let uniqueIps : gset string := list_to_set ips in
  let duplicate := bool_decide (length ips <> size uniqueIps) in
  ({| ipAddresses := ipAddresses p;
      validationErrors := errors;
      confirmDialogOpen := confirmDialogOpen p;
      toasts := if duplicate then toasts p ++ ["Validation Error"] else toasts p |},
   if duplicate then false else isValid).

(** [handleSave] *)
Definition handleSave (p : panel) : panel :=
  let '(p, valid) := validateAllIps p in
  if negb valid then p
  else {| ipAddresses := ipAddresses p; validationErrors := validationErrors p;
          confirmDialogOpen := true; toasts := toasts p |}.

End IpConfig.

(* ===================================================================== *)
(** * Properties                                                          *)
(* ===================================================================== *)

Import Sync.

(** The test on lines 28 / 26 of the two handlers lets through exactly the
    values of type ["object"] other than [null]. *)
Definition passes_validation (v : value) : bool :=
  negb (negb (truthy v) || bool_decide (typeof v <> "object")).

(** The test on lines 36 / 31: no document is held, or the submitted
    [lastUpdated] is greater than the held one. *)
Definition admission `{!Builtins} (newState currentState : value) : bool :=
  negb (truthy currentState)
  || greater (prop newState "lastUpdated") (prop currentState "lastUpdated").

(** The test on lines 36 / 31 throws: a document is held and one of the
    two [lastUpdated] cannot be converted to a primitive. *)
Definition throwing `{!Builtins} (newState currentState : value) : bool :=
  truthy currentState
  && bool_decide (GreaterThan (prop newState "lastUpdated")
                              (prop currentState "lastUpdated") = None).

(** [lastUpdated] when it is a number, as [SyncedState] declares it. *)
Definition stamp (v : value) : option Z :=
  match prop v "lastUpdated" with
  | VNum n => Some n
  | _ => None
  end.

(** A candidate is typed when its [lastUpdated] is a number or missing. *)
Definition typed (v : value) : Prop :=
  prop v "lastUpdated" = VUndefined \/ exists n, prop v "lastUpdated" = VNum n.

(** [w] is not older than [v]: a numeric stamp of [v] is matched by a
    numeric stamp of [w] that is at least as large. *)
Definition not_older (v w : value) : Prop :=
  forall n, stamp v = Some n -> exists m, stamp w = Some m /\ n <= m.

(** The calls among the events of an engine. *)
Definition calls (evs : list Sync.event) : list (callback * value) :=
  omap (fun e => match e with Call cb v => Some (cb, v) | Send _ => None end) evs.

(** Built-ins for the statements at concrete inputs.  Those inputs compare
    numbers with numbers, so no string is converted to a number, and where
    a frame is written its text is whatever [JSON_stringify] yields. *)
Definition unconsulted : Builtins := {|
  StringToNumber _ := None;
  JSON_stringify _ := EmptyString
|}.

(** Remote documents reaching an engine one after the other, each through
    a guarded [updateState]. *)
Fixpoint deliveries `{!Builtins} (vs : list value) (this : SyncService)
  : SyncService :=
  match vs with
  | [] => this
  | v :: vs => deliveries vs (guarded v this).1
  end.

(** Requests reaching simplified-route.ts one after the other, each with
    the reading of the server's clock when it is handled. *)
Fixpoint requests `{!Builtins} (rs : list (option value * Z)) (currentState : value)
  : value :=
  match rs with
  | [] => currentState
  | r :: rs => requests rs (SimplifiedRoute.POST r.1 r.2 currentState).2
  end.

(** Requests reaching route.ts with the adapter it builds,
    [ServerStorageAdapter]: each comes with the reading of the clock of
    route.ts and with the reading of the clock of the endpoint behind the
    adapter when that endpoint handles what route.ts sends it. *)
Fixpoint relayed `{!Builtins} (registry : list (string * nat))
  (rs : list (option value * Z * Z)) (srv : ServerStorage.server)
  : ServerStorage.server :=
  match rs with
  | [] => srv
  | r :: rs =>
      relayed registry rs
        (@Route.POST _ _ ServerStorage.server_adapter registry r.1.1 r.1.2
           (ServerStorage.with_clock r.2 srv)).1.2
  end.

(** The requests of such a run as the endpoint's clock sees them. *)
Definition endpoint_readings (rs : list (option value * Z * Z))
  : list (option value * Z) :=
  (fun r => (r.1.1, r.2)) <$> rs.

(** The clock does not run backwards: each reading is at least the one
    before, the first at least [t]. *)
Fixpoint ticking (t : Z) (rs : list (option value * Z)) : Prop :=
  match rs with
  | [] => True
  | r :: rs => t <= r.2 /\ ticking r.2 rs
  end.

(** The stamp of [v], when it has one, is not ahead of the clock. *)
Definition stamped_by (t : Z) (v : value) : Prop :=
  forall n, stamp v = Some n -> n <= t.

(** No event of [evs] is a call of [cb]. *)
Definition silent (cb : callback) (evs : list Sync.event) : Prop :=
  forall v, Call cb v ∉ evs.

(** A document with the two fields the scenarios of the spec use. *)
Definition document (controlMode : string) (lastUpdated : Z) : value :=
  object [("controlMode", VStr controlMode); ("lastUpdated", VNum lastUpdated)].

(** The actions through which a remote document reaches an engine. *)
Definition remote (a : action) : Prop :=
  match a with
  | Tick | SseMessage _ | WsMessage _ => True
  | _ => False
  end.

(** The actions that register or remove a callback. *)
Definition registration (a : action) : Prop :=
  match a with
  | Subscribe _ | Unsubscribe _ => True
  | _ => False
  end.

(** What the script sends as its update, seen by the handler. *)
Definition update_sent (now1 : Z) (original : value) : value :=
  VObj (omap Json.wire
          (<["lastUpdatedBy" := VStr "verification-script"]>
             (<["lastUpdated" := VNum now1]>
                (<["controlMode" := VStr (Verify.toggled original)]>
                   (own_props original))))).

(** A decimal digit, and a string made of decimal digits only. *)
Definition is_digit (c : Ascii.ascii) : bool :=
  (48 <=? IpConfig.code c)%nat && (IpConfig.code c <=? 57)%nat.

Fixpoint all_digits (s : string) : bool :=
  match s with
  | EmptyString => true
  | String c s => is_digit c && all_digits s
  end.

(** The strings a regular expression matches. *)
Fixpoint matches (r : IpConfig.regex) (o : string) : Prop :=
  match r with
  | IpConfig.Class lo hi =>
      exists c, o = String c EmptyString
                /\ (lo <= IpConfig.code c)%nat /\ (IpConfig.code c <= hi)%nat
  | IpConfig.Cat r1 r2 =>
      exists o1 o2, o = o1 +:+ o2 /\ matches r1 o1 /\ matches r2 o2
  | IpConfig.Alt r1 r2 => matches r1 o \/ matches r2 o
  | IpConfig.Opt r => o = EmptyString \/ matches r o
  end.

(** The number a string of decimal digits writes, after [acc]. *)
Fixpoint decimal (acc : nat) (s : string) : nat :=
  match s with
  | EmptyString => acc
  | String c s => decimal (10 * acc + (IpConfig.code c - 48)) s
  end.

(** One to three decimal digits that write a number up to 255. *)
Definition is_octet (s : string) : bool :=
  (1 <=? String.length s)%nat && (String.length s <=? 3)%nat
  && all_digits s && (decimal 0 s <=? 255)%nat.

(** How deeply arrays and objects are nested in a value. *)
Fixpoint depth (v : value) : nat :=
  match v with
  | VArr elems own =>
      S (max (foldr max 0%nat (depth <$> elems))
             (map_fold (fun _ d acc => max d acc) 0%nat (depth <$> own)))
  | VObj own => S (map_fold (fun _ d acc => max d acc) 0%nat (depth <$> own))
  | _ => 0%nat
  end.

(* --------------------------------------------------------------------- *)
(** ** Values, validation and comparison                                  *)
(* --------------------------------------------------------------------- *)

(** The volatile store keeps what it saves. *)
#[export] Instance volatile_durable : Durable volatile.
Proof. split; cbn; intros; congruence. Qed.

Section Basics.
Context `{!Builtins}.

Lemma passes_validation_shape v :
  passes_validation v = true <->
  (exists own, v = VObj own) \/ (exists elems own, v = VArr elems own).
Proof.
  unfold passes_validation. split.
  - destruct v; cbn; rewrite ?orb_true_r; try discriminate; eauto.
  - intros [[own ->] | (elems & own & ->)]; reflexivity.
Qed.

Lemma prop_assign_same v k x :
  passes_validation v = true -> prop (assign v k x) k = x.
Proof.
  intros [[own ->] | (elems & own & ->)]%passes_validation_shape;
    unfold prop; cbn.
  - by rewrite lookup_insert_eq.
  - erewrite lookup_union_Some_l; [done | by rewrite lookup_insert_eq].
Qed.

Lemma passes_validation_assign v k x :
  passes_validation v = true -> passes_validation (assign v k x) = true.
Proof.
  intros [[own ->] | (elems & own & ->)]%passes_validation_shape; reflexivity.
Qed.

Lemma passes_validation_truthy v : passes_validation v = true -> truthy v = true.
Proof.
  intros [[own ->] | (elems & own & ->)]%passes_validation_shape; reflexivity.
Qed.

Lemma stamp_assign v n :
  passes_validation v = true -> stamp (assign v "lastUpdated" (VNum n)) = Some n.
Proof. intros Hv. unfold stamp. by rewrite prop_assign_same. Qed.

Lemma ltb_irrefl s : String.ltb s s = false.
Proof.
  unfold String.ltb.
  assert (String.compare s s = Eq) as ->; [| done].
  induction s as [| a s IH]; cbn; [done |].
  assert (Ascii.compare a a = Eq) as ->; [| done].
  unfold Ascii.compare. apply N.compare_refl.
Qed.

Lemma greater_true x y : greater x y = true <-> GreaterThan x y = Some true.
Proof. unfold greater. destruct (GreaterThan x y) as [[] |]; cbn; naive_solver. Qed.

Lemma greater_irrefl x : greater x x = false.
Proof.
  unfold greater, GreaterThan, IsLessThan.
  destruct (ToPrimitive x) as [p |]; cbn; [| done].
  destruct p; cbn;
    try done; try (by rewrite Z.ltb_irrefl); try apply ltb_irrefl;
    by destruct (StringToNumber _); [apply Z.ltb_irrefl |].
Qed.

Lemma greater_num a b : greater (VNum a) (VNum b) = (b <? a).
Proof. reflexivity. Qed.

Lemma greater_undefined_l y : greater VUndefined y = false.
Proof.
  unfold greater, GreaterThan, IsLessThan.
  destruct (ToPrimitive y) as [p |]; cbn; [| done].
  destruct p; cbn; try done; by destruct (StringToNumber _).
Qed.

Lemma greater_undefined_r x : greater x VUndefined = false.
Proof.
  unfold greater, GreaterThan, IsLessThan. cbn.
  destruct (ToPrimitive x) as [p |]; cbn; [| done]. by destruct p.
Qed.

(** The test of the handlers, in terms of its three outcomes. *)
Lemma test_outcome v cur :
  (if negb (truthy cur) then Some true
   else GreaterThan (prop v "lastUpdated") (prop cur "lastUpdated"))
  = if throwing v cur then None else Some (admission v cur).
Proof.
  unfold throwing, admission, greater.
  destruct (truthy cur); cbn; [| done].
  destruct (GreaterThan _ _) as [b |]; [| by rewrite bool_decide_true].
  by rewrite bool_decide_false.
Qed.

Lemma admission_not_throwing v cur :
  admission v cur = true -> throwing v cur = false.
Proof.
  unfold throwing, admission, greater.
  destruct (truthy cur); cbn; [| done].
  destruct (GreaterThan _ _) as [b |]; [| done].
  intros _. by rewrite bool_decide_false.
Qed.

(** Numbers and a missing property are compared without a throw. *)
Lemma typed_not_throwing v cur : typed v -> typed cur -> throwing v cur = false.
Proof.
  unfold throwing. intros [-> | [n ->]] [-> | [m ->]];
    rewrite bool_decide_false; try done; by rewrite andb_false_r.
Qed.

Lemma pretty_N_go_digits x s :
  all_digits s = true -> all_digits (pretty_N_go x s) = true.
Proof.
  revert s. induction (N.lt_wf_0 x) as [x _ IH]; intros s Hs.
  assert (x = 0 \/ 0 < x)%N as [-> | Hx] by lia; [done |].
  rewrite pretty_N_go_step by done. apply IH; [by apply N.div_lt |].
  cbn [all_digits]. rewrite Hs, andb_true_r.
  unfold pretty_N_char. by repeat case_match.
Qed.

Lemma pretty_nat_digits (i : nat) : all_digits (pretty i) = true.
Proof.
  unfold pretty, pretty_nat, pretty, pretty_N.
  case_decide; [done |]. by apply pretty_N_go_digits.
Qed.

(** The elements of an array are properties named by numbers only. *)
Lemma index_props_named l k : all_digits k = false -> index_props l !! k = None.
Proof.
  intros Hk. unfold index_props. apply not_elem_of_list_to_map.
  intros ([k' v] & -> & Hin)%list_elem_of_fmap.
  apply list_elem_of_lookup in Hin as [i Hi].
  rewrite list_lookup_imap in Hi.
  destruct (l !! i); [| done]. cbn in Hi. injection Hi as <- _.
  cbn in Hk. by rewrite pretty_nat_digits in Hk.
Qed.

Lemma stamp_Some v n : stamp v = Some n -> prop v "lastUpdated" = VNum n.
Proof.
  unfold stamp. destruct (prop v "lastUpdated"); try discriminate.
  by intros [= ->].
Qed.

(** Only an object or an array has a stamp. *)
Lemma stamp_truthy v n : stamp v = Some n -> truthy v = true.
Proof.
  destruct v as [| | b | m | s | elems own | own]; try done.
  unfold stamp, prop. cbn [own_props]. by rewrite index_props_named.
Qed.

Lemma not_older_refl v : not_older v v.
Proof. intros n Hn. exists n. split; [done | lia]. Qed.

Lemma not_older_trans u v w : not_older u v -> not_older v w -> not_older u w.
Proof.
  intros Huv Hvw n Hn.
  destruct (Huv n Hn) as (m & Hm & Hnm).
  destruct (Hvw m Hm) as (p & Hp & Hmp).
  exists p. split; [done | lia].
Qed.

End Basics.

(* --------------------------------------------------------------------- *)
(** ** One request at a time                                              *)
(* --------------------------------------------------------------------- *)

Section OneRequest.
Context `{!Builtins}.

Lemma simplified_post_unparsable now cur :
  SimplifiedRoute.POST None now cur = (failure 500 "Failed to update state", cur).
Proof. reflexivity. Qed.

Lemma simplified_post_invalid v now cur :
  passes_validation v = false ->
  SimplifiedRoute.POST (Some v) now cur = (failure 400 "Invalid state data", cur).
Proof.
  unfold passes_validation, SimplifiedRoute.POST.
  by intros ->%negb_false_iff.
Qed.

Lemma simplified_post_accept v now cur :
  passes_validation v = true -> admission v cur = true ->
  let stored := assign v "lastUpdated" (VNum now) in
  SimplifiedRoute.POST (Some v) now cur
  = (json (object [("success", VBool true); ("state", stored)]), stored).
Proof.
  intros Hv Ha stored. subst stored.
  unfold passes_validation, SimplifiedRoute.POST in *.
  apply negb_true_iff in Hv.
  by rewrite Hv, test_outcome, admission_not_throwing, Ha.
Qed.

Lemma simplified_post_stale v now cur :
  passes_validation v = true -> admission v cur = false ->
  throwing v cur = false ->
  SimplifiedRoute.POST (Some v) now cur
  = (json (object [("success", VBool true); ("state", cur)]), cur).
Proof.
  unfold passes_validation, SimplifiedRoute.POST.
  intros ->%negb_true_iff Ha Ht. by rewrite test_outcome, Ht, Ha.
Qed.

Lemma simplified_post_throws v now cur :
  passes_validation v = true -> throwing v cur = true ->
  SimplifiedRoute.POST (Some v) now cur
  = (failure 500 "Failed to update state", cur).
Proof.
  unfold passes_validation, SimplifiedRoute.POST.
  intros ->%negb_true_iff Ht. by rewrite test_outcome, Ht.
Qed.

(** A candidate that is not admitted leaves the store as it was, whether
    the test said no or threw. *)
Lemma simplified_post_kept v now cur :
  admission v cur = false -> (SimplifiedRoute.POST (Some v) now cur).2 = cur.
Proof.
  intros Ha. destruct (passes_validation v) eqn:Hv;
    [| by rewrite simplified_post_invalid].
  destruct (throwing v cur) eqn:Ht;
    [by rewrite simplified_post_throws | by rewrite simplified_post_stale].
Qed.

Section WithAdapter.
Context {S : Type} `{!DbAdapter S}.

Lemma route_post_unparsable registry now (s : S) :
  Route.POST registry None now s = (failure 500 "Failed to update state", s, []).
Proof. reflexivity. Qed.

Lemma route_post_invalid registry v now (s : S) :
  passes_validation v = false ->
  Route.POST registry (Some v) now s = (failure 400 "Invalid state data", s, []).
Proof.
  unfold passes_validation, Route.POST.
  by intros ->%negb_false_iff.
Qed.

Lemma route_post_stale registry v now (s : S) :
  passes_validation v = true -> admission v (getState s) = false ->
  throwing v (getState s) = false ->
  Route.POST registry (Some v) now s
  = (json (object [("success", VBool true); ("state", v)]), s, []).
Proof.
  unfold passes_validation, Route.POST.
  intros ->%negb_true_iff Ha Ht. cbn zeta. by rewrite test_outcome, Ht, Ha.
Qed.

Lemma route_post_throws registry v now (s : S) :
  passes_validation v = true -> throwing v (getState s) = true ->
  Route.POST registry (Some v) now s
  = (failure 500 "Failed to update state", s, []).
Proof.
  unfold passes_validation, Route.POST.
  intros ->%negb_true_iff Ht. cbn zeta. by rewrite test_outcome, Ht.
Qed.

(** A candidate that is not admitted leaves the backend as it was and
    makes the handler write no frame, whether the test said no or threw. *)
Lemma route_post_kept registry v now (s : S) :
  admission v (getState s) = false ->
  (Route.POST registry (Some v) now s).1.2 = s
  /\ (Route.POST registry (Some v) now s).2 = [].
Proof.
  intros Ha. destruct (passes_validation v) eqn:Hv;
    [| by rewrite route_post_invalid].
  destruct (throwing v (getState s)) eqn:Ht;
    [by rewrite route_post_throws | by rewrite route_post_stale].
Qed.

Lemma route_post_saved registry v now (s s' : S) :
  passes_validation v = true -> admission v (getState s) = true ->
  let stored := assign v "lastUpdated" (VNum now) in
  saveState s stored = (true, s') ->
  Route.POST registry (Some v) now s
  = (json (object [("success", VBool true); ("state", stored)]), s',
     Route.notifyClients registry stored).
Proof.
  intros Hv Ha stored Hs. subst stored.
  unfold passes_validation, Route.POST in *.
  apply negb_true_iff in Hv. cbn zeta.
  by rewrite Hv, test_outcome, admission_not_throwing, Ha, Hs.
Qed.

Lemma route_post_not_saved registry v now (s s' : S) :
  passes_validation v = true -> admission v (getState s) = true ->
  saveState s (assign v "lastUpdated" (VNum now)) = (false, s') ->
  Route.POST registry (Some v) now s
  = (failure 500 "Failed to update state", s', []).
Proof.
  unfold passes_validation, Route.POST.
  intros ->%negb_true_iff Ha Hs. cbn zeta.
  by rewrite test_outcome, admission_not_throwing, Ha, Hs.
Qed.

(** A request either leaves the backend alone or saves the stamped
    candidate after the admission test has passed. *)
Lemma route_post_cases registry request now (s : S) :
  (Route.POST registry request now s).1.2 = s
  \/ exists v, request = Some v /\ passes_validation v = true
       /\ admission v (getState s) = true
       /\ (Route.POST registry request now s).1.2
          = (saveState s (assign v "lastUpdated" (VNum now))).2.
Proof.
  destruct request as [v |]; [| by left].
  destruct (passes_validation v) eqn:Hv;
    [| left; by rewrite route_post_invalid].
  destruct (admission v (getState s)) eqn:Ha;
    [| left; by apply route_post_kept].
  right. exists v. repeat split; try done.
  destruct (saveState s (assign v "lastUpdated" (VNum now))) as [[] s'] eqn:Hs.
  - by erewrite route_post_saved.
  - by erewrite route_post_not_saved.
Qed.

End WithAdapter.
End OneRequest.

(* --------------------------------------------------------------------- *)
(** ** Stale writes, admission and stamping                               *)
(* --------------------------------------------------------------------- *)

Section Admission.
Context `{!Builtins}.

Lemma prop_assign_other v k k' x :
  k <> k' -> prop (assign v k x) k' = prop v k'.
Proof.
  intros Hk. destruct v; try done; unfold prop; cbn.
  - by rewrite !lookup_union, lookup_insert_ne.
  - by rewrite lookup_insert_ne.
Qed.

Lemma or_else_truthy v w : truthy v = true -> or_else v w = v.
Proof. unfold or_else. by intros ->. Qed.

Lemma admission_equal_stamps v cur :
  truthy cur = true -> prop v "lastUpdated" = prop cur "lastUpdated" ->
  admission v cur = false.
Proof.
  intros Hc He. unfold admission. by rewrite Hc, He, greater_irrefl.
Qed.

(** A write that is not newer leaves the stored document alone.  When the
    test does not throw, the simplified handler answers with the stored
    document, the handler of route.ts with the candidate it has just
    turned down. *)
Lemma stale_write {S : Type} `{!DbAdapter S} registry v now (s : S) cur :
  passes_validation v = true ->
  truthy cur = true ->
  greater (prop v "lastUpdated") (prop cur "lastUpdated") = false ->
  (SimplifiedRoute.POST (Some v) now cur).2 = cur
  /\ (getState s = cur -> (Route.POST registry (Some v) now s).1.2 = s)
  /\ (throwing v cur = false ->
      SimplifiedRoute.POST (Some v) now cur
      = (json (object [("success", VBool true); ("state", cur)]), cur)
      /\ (getState s = cur ->
          Route.POST registry (Some v) now s
          = (json (object [("success", VBool true); ("state", v)]), s, []))).
Proof.
  intros Hv Hc Hg.
  assert (admission v cur = false) as Ha by (unfold admission; by rewrite Hc, Hg).
  split; [by apply simplified_post_kept |].
  split; [intros <-; by apply route_post_kept |].
  intros Ht. split; [by apply simplified_post_stale |].
  intros <-. by apply route_post_stale.
Qed.

(** C1, on the input of the scenario: the stored document is
    [{controlMode:"manual", lastUpdated:2000}] and
    [{controlMode:"semi", lastUpdated:1500}] is submitted.  Both handlers
    keep the stored document.  simplified-route.ts answers with it
    ([controlMode] "manual"); route.ts answers 200 with the candidate it
    rejected ([controlMode] "semi"), which is not the authoritative
    document the claim asks for. *)
Theorem stale_write_answer registry now :
  let stored := document "manual" 2000 in
  let candidate := document "semi" 1500 in
  let simplified := SimplifiedRoute.POST (Some candidate) now stored in
  let full := Route.POST registry (Some candidate) now (stored : volatile) in
  simplified.2 = stored
  /\ prop (prop (body simplified.1) "state") "controlMode" = VStr "manual"
  /\ full.1.2 = stored
  /\ status full.1.1 = 200%nat
  /\ prop (body full.1.1) "state" = candidate
  /\ prop (prop (body full.1.1) "state") "controlMode" = VStr "semi".
Proof. repeat split. Qed.


(** C4: when a document is stored, a request whose [lastUpdated] equals
    the stored one (the stored document itself, submitted again, is such a
    request) is not taken as newer: the store is left as it was and, in
    route.ts, nothing is saved or broadcast. *)
Theorem resubmission_not_newer {S : Type} `{!DbAdapter S} v now :
  (forall currentState,
     truthy currentState = true ->
     prop v "lastUpdated" = prop currentState "lastUpdated" ->
     (SimplifiedRoute.POST (Some v) now currentState).2 = currentState)
  /\ (forall registry (s : S),
        truthy (getState s) = true ->
        prop v "lastUpdated" = prop (getState s) "lastUpdated" ->
        (Route.POST registry (Some v) now s).1.2 = s
        /\ (Route.POST registry (Some v) now s).2 = []).
Proof.
  split.
  - intros cur Hc He. apply simplified_post_kept.
    by apply admission_equal_stamps.
  - intros registry s Hc He. apply route_post_kept.
    by apply admission_equal_stamps.
Qed.

End Admission.

(* --------------------------------------------------------------------- *)
(** ** Malformed bodies                                                   *)
(* --------------------------------------------------------------------- *)

Section Malformed.
Context `{!Builtins}.

(** A body that parses to [null], a boolean, a number or a string is
    answered with 400 by both handlers, and nothing is stored or sent. *)
Lemma primitive_body_rejected {S : Type} `{!DbAdapter S} registry v now cur (s : S) :
  match v with VArr _ _ | VObj _ => False | _ => True end ->
  SimplifiedRoute.POST (Some v) now cur = (failure 400 "Invalid state data", cur)
  /\ Route.POST registry (Some v) now s = (failure 400 "Invalid state data", s, []).
Proof.
  intros Hp.
  assert (passes_validation v = false) as Hv.
  { destruct (passes_validation v) eqn:E; [| done].
    apply passes_validation_shape in E as [[own ->] | (elems & own & ->)];
      destruct Hp. }
  split; [by apply simplified_post_invalid | by apply route_post_invalid].
Qed.

(** C5, at the body [[]] with nothing stored: the body is not a JSON
    object, yet both handlers answer 200 and store the array, so [GET]
    afterwards no longer returns what it returned before. *)
Theorem array_body_is_stored registry now :
  let simplified := SimplifiedRoute.POST (Some (VArr [] ∅)) now SimplifiedRoute.initial in
  let full := Route.POST registry (Some (VArr [] ∅)) now (VNull : volatile) in
  status simplified.1 = 200%nat
  /\ simplified.2 = VArr [] {[ "lastUpdated" := VNum now ]}
  /\ SimplifiedRoute.GET SimplifiedRoute.initial = json (object [])
  /\ SimplifiedRoute.GET simplified.2 = json (VArr [] {[ "lastUpdated" := VNum now ]})
  /\ status full.1.1 = 200%nat
  /\ Route.GET (VNull : volatile) = json (object [])
  /\ Route.GET full.1.2 = json (VArr [] {[ "lastUpdated" := VNum now ]}).
Proof. repeat split. Qed.

End Malformed.

(* --------------------------------------------------------------------- *)
(** ** Two writers                                                        *)
(* --------------------------------------------------------------------- *)

Section TwoWriters.
Context `{!Builtins}.

Lemma admission_empty v cur : truthy cur = false -> admission v cur = true.
Proof. unfold admission. by intros ->. Qed.

(** Against a stored document that a handler stamped at [t], a candidate
    stamped [n] by its client is taken exactly when [t < n]. *)
Lemma admission_after_stamp v w n t :
  passes_validation w = true -> stamp v = Some n ->
  admission v (assign w "lastUpdated" (VNum t)) = (t <? n).
Proof.
  intros Hw Hn. unfold admission.
  rewrite (passes_validation_truthy _ (passes_validation_assign _ _ _ Hw)).
  by rewrite (stamp_Some _ _ Hn), prop_assign_same.
Qed.

(** Between two documents with numeric stamps the test does not throw and
    says whether the candidate's stamp is the greater. *)
Lemma admission_stamps v cur n t :
  stamp v = Some n -> stamp cur = Some t ->
  admission v cur = (t <? n) /\ throwing v cur = false.
Proof.
  intros Hn Ht. split.
  - unfold admission. rewrite (stamp_truthy _ _ Ht).
    by rewrite (stamp_Some _ _ Hn), (stamp_Some _ _ Ht).
  - apply typed_not_throwing; right; eexists; by apply stamp_Some.
Qed.

(** C2, as amended.  [A] and [B] are well-formed documents stamped [a < b]
    by their clients; nothing is stored at first, or a document stamped
    below [a]; the server's clock reads [t1] at the first request and [t2]
    at the second.  In simplified-route.ts, [A] then [B]: the store ends
    as [B] stamped [t2] when [t1 < b], and stays [A] stamped [t1]
    otherwise; [B] then [A]: the store stays [B] stamped [t1] when
    [a <= t1].  route.ts decides in the same way against what its adapter
    reads: against a document stamped [t], a candidate stamped [n] is
    stamped with the clock and handed to [saveState] when [t < n], and the
    backend is left alone when [n <= t]. *)
Theorem admission_monotone_within_clock {S : Type} `{!DbAdapter S}
  (A B : value) (a b t1 t2 : Z) (currentState : value) :
  passes_validation A = true -> passes_validation B = true ->
  stamp A = Some a -> stamp B = Some b -> a < b ->
  truthy currentState = false \/ (exists c, stamp currentState = Some c /\ c < a) ->
  let simple r t cur := (SimplifiedRoute.POST (Some r) t cur).2 in
  let A1 := assign A "lastUpdated" (VNum t1) in
  let B1 := assign B "lastUpdated" (VNum t1) in
  let B2 := assign B "lastUpdated" (VNum t2) in
  (t1 < b -> simple B t2 (simple A t1 currentState) = B2)
  /\ (b <= t1 -> simple B t2 (simple A t1 currentState) = A1)
  /\ (a <= t1 -> simple A t2 (simple B t1 currentState) = B1)
  /\ (forall registry (s : S) v n t now,
        passes_validation v = true -> stamp v = Some n ->
        stamp (getState s) = Some t ->
        let stamped := assign v "lastUpdated" (VNum now) in
        (t < n ->
         Route.POST registry (Some v) now s
         = if (saveState s stamped).1
           then (json (object [("success", VBool true); ("state", stamped)]),
                 (saveState s stamped).2, Route.notifyClients registry stamped)
           else (failure 500 "Failed to update state", (saveState s stamped).2, []))
        /\ (n <= t ->
            Route.POST registry (Some v) now s
            = (json (object [("success", VBool true); ("state", v)]), s, []))).
Proof.
  intros HA HB Ha Hb Hab Hcur simple A1 B1 B2. subst A1 B1 B2.
  assert (forall r n t, passes_validation r = true -> stamp r = Some n -> a <= n ->
            simple r t currentState = assign r "lastUpdated" (VNum t)) as Hfirst.
  { intros r n t Hr Hn Han. unfold simple. rewrite simplified_post_accept; [done .. |].
    destruct Hcur as [Hc | (c & Hc & Hca)]; [by apply admission_empty |].
    rewrite (proj1 (admission_stamps r currentState n c Hn Hc)). lia. }
  split; [| split; [| split]].
  - intros Hlt. rewrite (Hfirst A a) by (done || lia). unfold simple.
    rewrite simplified_post_accept; [done .. |].
    rewrite (admission_after_stamp B A b t1) by done. lia.
  - intros Hle. rewrite (Hfirst A a) by (done || lia). unfold simple.
    apply simplified_post_kept.
    rewrite (admission_after_stamp B A b t1) by done. lia.
  - intros Hle. rewrite (Hfirst B b) by (done || lia). unfold simple.
    apply simplified_post_kept.
    rewrite (admission_after_stamp A B a t1) by done. lia.
  - intros registry s v n t now Hv Hn Ht stamped.
    destruct (admission_stamps v (getState s) n t Hn Ht) as [Hadm Hthrow].
    split.
    + intros Hlt.
      assert (admission v (getState s) = true) as Hyes by (rewrite Hadm; lia).
      destruct (saveState s stamped) as [[] s'] eqn:Hs; cbn [fst snd].
      * by apply route_post_saved.
      * by apply route_post_not_saved.
    + intros Hle. apply route_post_stale; [done | | done].
      rewrite Hadm. lia.
Qed.

End TwoWriters.

(* --------------------------------------------------------------------- *)
(** ** The held stamp never decreases                                     *)
(* --------------------------------------------------------------------- *)

Section Monotone.
Context `{!Builtins}.

Lemma guarded_not_newer v this :
  greater (prop v "lastUpdated") (prop (state this) "lastUpdated") = false ->
  guarded v this = (this, []).
Proof.
  intros Hg. unfold guarded, updateState.
  destruct (nullish v || nullish (state this)); [done |].
  unfold greater in Hg. by destruct (GreaterThan _ _) as [[] |].
Qed.

Lemma guarded_cases v this :
  guarded v this = (this, [])
  \/ (greater (prop v "lastUpdated") (prop (state this) "lastUpdated") = true
      /\ guarded v this
         = (with_state v this, notifyStateChange (with_state v this))).
Proof.
  unfold guarded, updateState.
  destruct (nullish v || nullish (state this)); [by left |].
  destruct (GreaterThan _ _) as [[] |] eqn:Hg; [| by left | by left].
  right. split; [by apply greater_true | done].
Qed.

Lemma guarded_not_older v this :
  typed v -> not_older (state this) (state (guarded v this).1).
Proof.
  intros Hv. destruct (guarded_cases v this) as [-> | [Hg ->]];
    [apply not_older_refl |].
  cbn. intros n Hn. apply stamp_Some in Hn. rewrite Hn in Hg.
  destruct Hv as [Hu | [m Hm]].
  - rewrite Hu, greater_undefined_l in Hg. discriminate.
  - rewrite Hm, greater_num in Hg. exists m. unfold stamp. rewrite Hm.
    split; [done | lia].
Qed.

Lemma deliveries_not_older vs this :
  Forall typed vs -> not_older (state this) (state (deliveries vs this)).
Proof.
  intros Hvs. revert this.
  induction Hvs as [| v vs Hv _ IH]; intros this; cbn.
  - apply not_older_refl.
  - eapply not_older_trans; [by apply guarded_not_older | apply IH].
Qed.

Lemma deliveries_app vs ws this :
  deliveries (vs ++ ws) this = deliveries ws (deliveries vs this).
Proof. revert this. induction vs as [| v vs IH]; intros this; cbn; [done | apply IH]. Qed.

(** One request, with the clock at [now >= t]: the stored document is kept
    or replaced by one stamped [now]. *)
Lemma simplified_post_step r now t cur :
  t <= now -> stamped_by t cur ->
  let cur' := (SimplifiedRoute.POST r now cur).2 in
  not_older cur cur' /\ stamped_by now cur'.
Proof.
  intros Ht Hcur cur'. subst cur'.
  assert (not_older cur cur /\ stamped_by now cur) as Hkeep.
  { split; [apply not_older_refl |]. intros n Hn. specialize (Hcur n Hn). lia. }
  destruct r as [v |]; [| done].
  destruct (passes_validation v) eqn:Hv; [| by rewrite simplified_post_invalid].
  destruct (admission v cur) eqn:Ha; [| by rewrite simplified_post_kept].
  rewrite simplified_post_accept by done. cbn. split.
  - intros n Hn. exists now. rewrite stamp_assign by done.
    split; [done |]. specialize (Hcur n Hn). lia.
  - intros n. rewrite stamp_assign by done. intros [= ->]. lia.
Qed.

Lemma requests_not_older rs t cur :
  ticking t rs -> stamped_by t cur -> not_older cur (requests rs cur).
Proof.
  revert t cur. induction rs as [| [r now] rs IH]; intros t cur Ht Hcur; cbn.
  - apply not_older_refl.
  - destruct Ht as [Ht Hrs]. cbn in Ht, Hrs.
    destruct (simplified_post_step r now t cur Ht Hcur) as [H1 H2].
    eapply not_older_trans; [exact H1 | by eapply IH].
Qed.

Lemma requests_app rs rs' cur :
  requests (rs ++ rs') cur = requests rs' (requests rs cur).
Proof. revert cur. induction rs as [| r rs IH]; intros cur; cbn; [done | apply IH]. Qed.

Lemma requests_prefix rs rs' t cur :
  ticking t (rs ++ rs') -> stamped_by t cur ->
  exists t', ticking t' rs' /\ stamped_by t' (requests rs cur).
Proof.
  revert t cur. induction rs as [| [r now] rs IH]; intros t cur Ht Hcur; cbn.
  - by exists t.
  - destruct Ht as [Ht Hrs]. cbn in Ht, Hrs.
    destruct (simplified_post_step r now t cur Ht Hcur) as [_ H2].
    by eapply IH.
Qed.

End Monotone.

(* --------------------------------------------------------------------- *)
(** ** Broadcast on write                                                 *)
(* --------------------------------------------------------------------- *)

Section Broadcast.
Context `{!Builtins} {S : Type} `{!DbAdapter S}.

Lemma route_post_frames registry request now (s : S) :
  (Route.POST registry request now s).2 = []
  \/ exists v, (Route.POST registry request now s).2
               = Route.notifyClients registry (assign v "lastUpdated" (VNum now)).
Proof.
  destruct request as [v |]; [| by left].
  destruct (passes_validation v) eqn:Hv;
    [| left; by rewrite route_post_invalid].
  destruct (admission v (getState s)) eqn:Ha;
    [| left; by apply route_post_kept].
  destruct (saveState s (assign v "lastUpdated" (VNum now))) as [[] s'] eqn:Hs.
  - right. exists v. by erewrite route_post_saved.
  - left. by erewrite route_post_not_saved.
Qed.

(** C9: a write that is taken and saved makes the handler of route.ts
    write one frame, carrying the serialised stored document, to each
    stream of the registry, and to no other stream.  The registry of the
    module is empty and nothing fills it, [GET] included: with it no
    request ever writes a frame. *)
Theorem broadcast_on_accept registry newState now (s s' : S) :
  passes_validation newState = true ->
  admission newState (getState s) = true ->
  let stored := assign newState "lastUpdated" (VNum now) in
  saveState s stored = (true, s') ->
  let frames := (Route.POST registry (Some newState) now s).2 in
  frames
  = (fun entry => Route.Write entry.2 ("data: " +:+ JSON_stringify stored +:+ LF +:+ LF))
      <$> registry
  /\ length frames = length registry
  /\ (forall client, client ∉ registry.*2 -> forall data, Route.Write client data ∉ frames)
  /\ (forall request now' (s0 : S),
        (Route.POST Route.clients request now' s0).2 = []).
Proof.
  intros Hv Ha stored Hs frames. subst frames.
  rewrite (route_post_saved registry newState now s s' Hv Ha Hs).
  change (_, _, ?evs).2 with evs. unfold Route.notifyClients.
  split; [done |]. split; [by rewrite length_fmap |]. split.
  - intros client Hc data Hin. apply Hc.
    apply list_elem_of_fmap in Hin as ([id c] & [= -> _] & Hin).
    apply list_elem_of_fmap. by exists (id, c).
  - intros request now' s0.
    by destruct (route_post_frames Route.clients request now' s0) as [-> | [v ->]].
Qed.

End Broadcast.

(* --------------------------------------------------------------------- *)
(** ** The engine: publishing                                             *)
(* --------------------------------------------------------------------- *)

Section Publishing.
Context `{!Builtins} {S : Type} `{!DbAdapter S}.

Lemma calls_notify this :
  calls (notifyStateChange this)
  = (fun cb => (cb, state this)) <$> onStateChangeCallbacks this.
Proof.
  unfold notifyStateChange, calls.
  induction (onStateChangeCallbacks this) as [| cb l IH]; cbn; [done |].
  by rewrite IH.
Qed.

(** C7.  [updateStateAndPublish] hands to [saveState] the document that
    reads, at every property, as the partial edit where the edit has the
    property and as the in-memory document elsewhere, except that
    [lastUpdated] is the clock and [lastUpdatedBy] the client id.  When
    [saveState] returns [false] the call returns [false], the engine is as
    it was and nothing is called or sent.  When it returns [true] the call
    returns [true], that document is the in-memory document, and the
    callbacks called are all the registered ones, in order, each with it. *)
Theorem publish_outcome partialState now this (s : S) :
  exists newState,
    (forall k,
       prop newState k
       = if decide (k = "lastUpdatedBy") then VStr (clientId this)
         else if decide (k = "lastUpdated") then VNum now
         else match own_props partialState !! k with
              | Some x => x
              | None => default VUndefined (own_props (state this) !! k)
              end)
    /\ match saveState s newState with
       | (false, s') =>
           updateStateAndPublish partialState now this s = (false, this, s', [])
       | (true, s') =>
           exists evs,
             updateStateAndPublish partialState now this s
             = (true, with_state newState this, s', evs)
             /\ calls evs
                = (fun cb => (cb, newState)) <$> onStateChangeCallbacks this
       end.
Proof.
  set (newState :=
         VObj (<["lastUpdatedBy" := VStr (clientId this)]>
                 (<["lastUpdated" := VNum now]>
                    (own_props partialState ∪ own_props (state this))))).
  exists newState. split.
  - intros k. unfold prop. cbn.
    rewrite !lookup_insert, lookup_union.
    destruct (decide (k = "lastUpdatedBy")) as [-> | Hk1]; [by rewrite decide_True |].
    rewrite decide_False by done.
    destruct (decide (k = "lastUpdated")) as [-> | Hk2]; [by rewrite decide_True |].
    rewrite decide_False by done.
    by destruct (own_props partialState !! k), (own_props (state this) !! k).
  - unfold updateStateAndPublish. fold newState.
    destruct (saveState s newState) as [[] s']; cbn [negb]; [| done].
    eexists. split; [reflexivity |].
    unfold calls. rewrite omap_app. fold (calls (notifyStateChange (with_state newState this))).
    rewrite calls_notify. by destruct (socketOpen this).
Qed.

End Publishing.

(* --------------------------------------------------------------------- *)
(** ** The engine: subscribing                                            *)
(* --------------------------------------------------------------------- *)

Section Subscribing.
Context `{!Builtins} {S : Type} `{!DbAdapter S}.

Lemma silent_nil cb : silent cb [].
Proof. intros v Hin. by apply elem_of_nil in Hin. Qed.

Lemma silent_app cb evs evs' :
  silent cb evs -> silent cb evs' -> silent cb (evs ++ evs').
Proof. intros H1 H2 v [Hin | Hin]%elem_of_app; [by eapply H1 | by eapply H2]. Qed.

Lemma silent_notify cb this :
  cb ∉ onStateChangeCallbacks this -> silent cb (notifyStateChange this).
Proof.
  intros Hcb v Hin. apply Hcb.
  by apply list_elem_of_fmap in Hin as (c & [= -> _] & Hin).
Qed.

Lemma guarded_callbacks v this :
  onStateChangeCallbacks (guarded v this).1 = onStateChangeCallbacks this.
Proof. by destruct (guarded_cases v this) as [-> | [_ ->]]. Qed.

Lemma guarded_silent cb v this :
  cb ∉ onStateChangeCallbacks this -> silent cb (guarded v this).2.
Proof.
  intros Hcb. destruct (guarded_cases v this) as [-> | [_ ->]];
    [apply silent_nil | by apply silent_notify].
Qed.

Lemma initialize_callbacks this (s : S) :
  onStateChangeCallbacks (initialize this s).1 = onStateChangeCallbacks this.
Proof.
  unfold initialize.
  destruct (isInitialized this); [done |]. by destruct (truthy (getState s)).
Qed.

Lemma initialize_silent cb this (s : S) :
  cb ∉ onStateChangeCallbacks this -> silent cb (initialize this s).2.
Proof.
  intros Hcb. unfold initialize.
  destruct (isInitialized this); [apply silent_nil |].
  destruct (truthy (getState s)); [by apply silent_notify | apply silent_nil].
Qed.

Lemma unsubscribe_removes cb this :
  cb ∉ onStateChangeCallbacks (unsubscribe cb this).
Proof. cbn. by intros [Hne _]%list_elem_of_filter. Qed.

Lemma lifted_engine {A B C : Type} (x : A * B) (c : C) :
  (let '(a, b) := x in (a, c, b)).1.1 = x.1.
Proof. by destruct x. Qed.

Lemma lifted_events {A B C : Type} (x : A * B) (c : C) :
  (let '(a, b) := x in (a, c, b)).2 = x.2.
Proof. by destruct x. Qed.

(** A step other than a registration of [cb] keeps [cb] out of the
    callbacks and does not call it. *)
Lemma step_silent cb a this (s : S) :
  cb ∉ onStateChangeCallbacks this -> a <> Subscribe cb ->
  (cb ∉ onStateChangeCallbacks (step a this s).1.1) /\ silent cb (step a this s).2.
Proof.
  intros Hcb Ha.
  destruct a as [| id | | data | data | open | p now | c | c];
    cbn [step]; rewrite ?lifted_engine, ?lifted_events.
  - rewrite initialize_callbacks. split; [done | by apply initialize_silent].
  - unfold updateConfig.
    set (that := with_initialized false (with_socket false
                   match id with Some id => with_clientId id this | None => this end)).
    assert (onStateChangeCallbacks that = onStateChangeCallbacks this) as Ht
      by (by destruct id).
    rewrite initialize_callbacks, Ht. split; [done |].
    apply initialize_silent. by rewrite Ht.
  - unfold fetchState.
    destruct (truthy (getState s)); [| by split; [| apply silent_nil]].
    rewrite guarded_callbacks. split; [done | by apply guarded_silent].
  - destruct data as [v |]; cbn [sse_onmessage]; [| by split; [| apply silent_nil]].
    rewrite guarded_callbacks. split; [done | by apply guarded_silent].
  - destruct data as [v |]; cbn [ws_onmessage]; [| by split; [| apply silent_nil]].
    destruct (nullish v); [by split; [| apply silent_nil] |].
    destruct (strict_equal_string _ _); [| by split; [| apply silent_nil]].
    rewrite guarded_callbacks. split; [done | by apply guarded_silent].
  - by split; [| apply silent_nil].
  - unfold updateStateAndPublish.
    destruct (saveState s _) as [[] s']; cbn [negb fst snd];
      [| by split; [| apply silent_nil]].
    split; [done |]. apply silent_app.
    + destruct (socketOpen this); [| apply silent_nil].
      intros v Hin. apply list_elem_of_singleton in Hin. discriminate.
    + by apply silent_notify.
  - assert (c <> cb) as Hne by congruence. cbn. split.
    + intros [Hin | Hin%list_elem_of_singleton]%elem_of_app; [done | by subst].
    + intros v Hin%list_elem_of_singleton. congruence.
  - cbn. split; [| apply silent_nil].
    intros [_ Hin]%list_elem_of_filter. done.
Qed.

Lemma run_silent cb l this (s : S) :
  cb ∉ onStateChangeCallbacks this -> Forall (fun a => a <> Subscribe cb) l ->
  silent cb (run l this s).2.
Proof.
  intros Hcb Hl. revert this s Hcb.
  induction Hl as [| a l Ha _ IH]; intros this s Hcb; cbn; [apply silent_nil |].
  destruct (step_silent cb a this s Hcb Ha) as [Hcb' Hs].
  destruct (step a this s) as [[this' s'] evs]. cbn in *.
  specialize (IH this' s' Hcb').
  destruct (run l this' s') as [[this'' s''] evs']. cbn in *.
  by apply silent_app.
Qed.

(** C6.  [onStateChange] calls the callback once, with the in-memory
    document, before it returns, and calls nothing else; the callback is
    registered when it returns, and the document is as before.  Whatever
    happens to the engine next, the events of the whole run begin with that
    call, so it precedes every later call.  Once the returned function has
    run, no run of the engine calls the callback, unless it is registered
    again. *)
Theorem subscriber_replay cb this :
  let '(this', evs, unsubscribe) := onStateChange cb this in
  evs = [Call cb (state this)]
  /\ state this' = state this
  /\ cb ∈ onStateChangeCallbacks this'
  /\ (forall l (s : S),
        (run (Subscribe cb :: l) this s).2
        = Call cb (state this) :: (run l this' s).2)
  /\ (forall l that (s : S),
        Forall (fun a => a <> Subscribe cb) l ->
        forall v, Call cb v ∉ (run l (unsubscribe that) s).2).
Proof.
  cbn. split; [done |]. split; [done |]. split; [| split].
  - apply elem_of_app. right. by apply list_elem_of_singleton.
  - intros l s. by destruct (run l _ s) as [[this'' s''] evs'].
  - intros l that s Hl.
    apply (run_silent cb l (Sync.unsubscribe cb that) s); [| done].
    apply unsubscribe_removes.
Qed.

End Subscribing.

(* --------------------------------------------------------------------- *)
(** ** At concrete inputs                                                 *)
(* --------------------------------------------------------------------- *)

(** C2 fails as stated.  Two clients stamp [A] at 1000 and [B] at 1001; the
    server handles [A] at 1002 and [B] at 1003.  [A] is stored with the
    stamp 1002, so [B], whose own stamp 1001 is not greater, is turned
    down: the store ends as [A], not as [B].  In the other order, with
    clients whose clocks run ahead of the server's ([B] stamped 4000 and
    handled at 2000, [A] stamped 3000 and handled at 2500), [A] replaces
    [B]. *)
Lemma admission_not_monotone :
  let post r t cur := (@SimplifiedRoute.POST unconsulted (Some r) t cur).2 in
  let A := document "manual" 1000 in
  let B := document "semi" 1001 in
  let A' := document "manual" 3000 in
  let B' := document "semi" 4000 in
  (stamp A = Some 1000 /\ stamp B = Some 1001 /\ 1000 < 1001
   /\ post B 1003 (post A 1002 SimplifiedRoute.initial)
      = assign A "lastUpdated" (VNum 1002)
   /\ post B 1003 (post A 1002 SimplifiedRoute.initial)
      <> assign B "lastUpdated" (VNum 1003))
  /\ (stamp A' = Some 3000 /\ stamp B' = Some 4000 /\ 3000 < 4000
      /\ post A' 2500 (post B' 2000 SimplifiedRoute.initial)
         = assign A' "lastUpdated" (VNum 2500)
      /\ post A' 2500 (post B' 2000 SimplifiedRoute.initial)
         <> assign B' "lastUpdated" (VNum 2000)).
Proof.
  cbv zeta. split.
  - split; [reflexivity |]. split; [reflexivity |]. split; [lia |].
    split; [reflexivity |].
    intros Heq. apply (f_equal (fun v => prop v "controlMode")) in Heq.
    vm_compute in Heq. discriminate.
  - split; [reflexivity |]. split; [reflexivity |]. split; [lia |].
    split; [reflexivity |].
    intros Heq. apply (f_equal (fun v => prop v "controlMode")) in Heq.
    vm_compute in Heq. discriminate.
Qed.


Lemma resubmission_not_newer_witness :
  truthy (document "manual" 2000) = true
  /\ (@SimplifiedRoute.POST unconsulted (Some (document "manual" 2000)) 5000
        (document "manual" 2000)).2
     = document "manual" 2000.
Proof.
  split; [reflexivity |].
  apply (proj1 (@resubmission_not_newer unconsulted volatile _
                  (document "manual" 2000) 5000));
    reflexivity.
Defined.

Lemma subscriber_replay_witness :
  let engine := with_callbacks [1%nat; 2%nat] (create "client_a" 1000) in
  let later := [Publish (object [("controlMode", VStr "manual")]) 2000;
                SseMessage (Some (document "semi" 3000))] in
  Forall (fun a => a <> Subscribe 1%nat) later
  /\ forall v,
       Call 1%nat v
       ∉ (@run unconsulted volatile _ later (unsubscribe 1%nat engine) VNull).2.
Proof.
  cbv zeta.
  assert (Forall (fun a => a <> Subscribe 1%nat)
            [Publish (object [("controlMode", VStr "manual")]) 2000;
             SseMessage (Some (document "semi" 3000))]) as Hl
    by (repeat constructor; discriminate).
  split; [exact Hl |].
  pose proof (@subscriber_replay unconsulted volatile _ 1%nat
                (with_callbacks [1%nat; 2%nat] (create "client_a" 1000))) as Hr.
  cbv beta iota delta [onStateChange] in Hr.
  destruct Hr as (_ & _ & _ & _ & Hr). intros v. by apply Hr.
Defined.

Lemma broadcast_on_accept_witness :
  let registry := [("c1", 1%nat); ("c2", 2%nat)] in
  let stored := assign (document "manual" 2000) "lastUpdated" (VNum 5000) in
  (passes_validation (document "manual" 2000) = true
   /\ @admission unconsulted (document "manual" 2000) VNull = true)
  /\ length (@Route.POST unconsulted volatile _ registry
               (Some (document "manual" 2000)) 5000 VNull).2 = 2%nat.
Proof.
  cbv zeta. split; [split; reflexivity |].
  refine (proj1 (proj2
    (@broadcast_on_accept unconsulted volatile _ [("c1", 1%nat); ("c2", 2%nat)]
       (document "manual" 2000) 5000 VNull
       (assign (document "manual" 2000) "lastUpdated" (VNum 5000))
       _ _ _)));
    reflexivity.
Defined.

(** The scenario of the spec on simplified-route.ts: the stored document is
    [{controlMode:"auto", lastUpdated:1000}]; [{controlMode:"manual",
    lastUpdated:2000}] is taken and stored with the server's stamp (5000
    here); [{controlMode:"semi", lastUpdated:1500}] is then turned down and
    the answer carries "manual". *)
Example scenario_simplified :
  let first := @SimplifiedRoute.POST unconsulted (Some (document "manual" 2000)) 5000
                 (document "auto" 1000) in
  let second := @SimplifiedRoute.POST unconsulted (Some (document "semi" 1500)) 6000
                  first.2 in
  prop (prop (body first.1) "state") "controlMode" = VStr "manual"
  /\ stamp first.2 = Some 5000
  /\ second.2 = first.2
  /\ prop (prop (body second.1) "state") "controlMode" = VStr "manual".
Proof. repeat split. Qed.

(** Bodies that are not objects: [null], a string and a number are
    answered with 400, a body that is not JSON with 500; none is stored. *)
Example malformed_bodies :
  let cur := document "auto" 1000 in
  (@SimplifiedRoute.POST unconsulted (Some VNull) 5000 cur
   = (failure 400 "Invalid state data", cur))
  /\ (@SimplifiedRoute.POST unconsulted (Some (VStr "not-json")) 5000 cur
      = (failure 400 "Invalid state data", cur))
  /\ (@SimplifiedRoute.POST unconsulted (Some (VNum 7)) 5000 cur
      = (failure 400 "Invalid state data", cur))
  /\ (@SimplifiedRoute.POST unconsulted None 5000 cur
      = (failure 500 "Failed to update state", cur)).
Proof. repeat split. Qed.

(** Publishing through [LocalStorageAdapter] where there is no [window]:
    the save fails, the call returns [false], the engine is as it was and
    the subscriber is not called. *)
Example publish_without_window :
  let engine := with_callbacks [7%nat] (create "client_a" 1000) in
  @updateStateAndPublish unconsulted windowless _
    (object [("controlMode", VStr "manual")]) 2000 engine tt
  = (false, engine, tt, []).
Proof. reflexivity. Qed.

(** Publishing through the volatile store: the call returns [true], the
    edit is merged over the default document, stamped, saved, and the
    subscriber is called with it. *)
Example publish_to_volatile :
  let engine := with_callbacks [7%nat] (create "client_a" 1000) in
  let '(ok, this, saved, evs) :=
    @updateStateAndPublish unconsulted volatile _
      (object [("controlMode", VStr "manual")]) 2000 engine VNull in
  ok = true
  /\ prop (state this) "controlMode" = VStr "manual"
  /\ prop (state this) "signalStatus" = prop (defaultState 1000) "signalStatus"
  /\ prop (state this) "lastUpdated" = VNum 2000
  /\ prop (state this) "lastUpdatedBy" = VStr "client_a"
  /\ saved = state this
  /\ evs = [Call 7%nat (state this)].
Proof. repeat split. Qed.

(** A subscriber is called with the default document when it registers,
    and again when a newer remote document is adopted; an older one is
    ignored. *)
Example subscribe_then_remote :
  (@run unconsulted volatile _
     [Subscribe 7%nat;
      SseMessage (Some (document "manual" 2000));
      SseMessage (Some (document "semi" 1500));
      SseMessage (Some VNull)]
     (create "client_a" 1000) VNull).2
  = [Call 7%nat (defaultState 1000); Call 7%nat (document "manual" 2000)].
Proof. reflexivity. Qed.

(* ===================================================================== *)
(** * Further properties                                                  *)
(* ===================================================================== *)

(* --------------------------------------------------------------------- *)
(** ** The engine over any adapter                                        *)
(* --------------------------------------------------------------------- *)

Section Engine.
Context `{!Builtins} {S : Type} `{!DbAdapter S}.

Lemma truthy_not_nullish v : truthy v = true -> nullish v = false.
Proof. by destruct v. Qed.

(** What one step does to the document and whom it calls: the document is
    kept and nobody is called, or a callback that registers is called with
    the kept document, or every registered callback is called, in order,
    with the document held after the step. *)
Lemma step_outcome a this (s : S) :
  let this' := (step a this s).1.1 in
  let evs := (step a this s).2 in
  (state this' = state this
   /\ (calls evs = [] \/ exists cb, a = Subscribe cb /\ calls evs = [(cb, state this)]))
  \/ ((nullish (state this) = false -> nullish (state this') = false)
      /\ calls evs = (fun cb => (cb, state this')) <$> onStateChangeCallbacks this').
Proof.
  assert (forall v that,
    (state (guarded v that).1 = state that /\ calls (guarded v that).2 = [])
    \/ ((nullish (state that) = false -> nullish (state (guarded v that).1) = false)
        /\ calls (guarded v that).2
           = (fun cb => (cb, state (guarded v that).1))
               <$> onStateChangeCallbacks (guarded v that).1)) as Hguarded.
  { intros v that. unfold guarded, updateState.
    destruct (nullish v) eqn:Hv; [by left |].
    destruct (nullish (state that)); [by left |]. cbn [orb].
    destruct (GreaterThan _ _) as [[] |]; [right | by left | by left].
    cbn [fst snd]. split; [done | apply calls_notify]. }
  assert (forall that,
    (state (initialize that s).1 = state that /\ calls (initialize that s).2 = [])
    \/ ((nullish (state that) = false -> nullish (state (initialize that s).1) = false)
        /\ calls (initialize that s).2
           = (fun cb => (cb, state (initialize that s).1))
               <$> onStateChangeCallbacks (initialize that s).1)) as Hinit.
  { intros that. unfold initialize.
    destruct (isInitialized that); [by left |].
    destruct (truthy (getState s)) eqn:Ht; [right | by left].
    cbn [fst snd]. split; [| apply calls_notify].
    intros _. by apply truthy_not_nullish. }
  destruct a as [| id | | data | data | open | p now | c | c];
    cbn [step]; cbv zeta; rewrite ?lifted_engine, ?lifted_events.
  - destruct (Hinit this) as [[? ?] | ?]; [left | right]; auto.
  - unfold updateConfig.
    set (that := with_initialized false (with_socket false
                   match id with Some id => with_clientId id this | None => this end)).
    assert (state that = state this) as Ht by (by destruct id).
    destruct (Hinit that) as [[? ?] | [? ?]]; [left | right].
    + split; [congruence | auto].
    + split; [by rewrite <- Ht | done].
  - unfold fetchState. destruct (truthy (getState s)); [| left; auto].
    destruct (Hguarded (getState s) this) as [[? ?] | ?]; [left | right]; auto.
  - destruct data as [v |]; cbn [sse_onmessage]; [| left; auto].
    destruct (Hguarded v this) as [[? ?] | ?]; [left | right]; auto.
  - destruct data as [v |]; cbn [ws_onmessage]; [| left; auto].
    destruct (nullish v); [left; auto |].
    destruct (strict_equal_string _ _); [| left; auto].
    destruct (Hguarded (prop v "state") this) as [[? ?] | ?]; [left | right]; auto.
  - left. auto.
  - unfold updateStateAndPublish.
    destruct (saveState s _) as [[] s']; cbn [negb fst snd]; [right | left; auto].
    split; [done |].
    unfold calls. rewrite omap_app.
    match goal with
    | |- context [omap ?f (notifyStateChange ?t)] =>
        change (omap f (notifyStateChange t)) with (calls (notifyStateChange t))
    end.
    rewrite calls_notify. by destruct (socketOpen this).
  - left. split; [done |]. right. by exists c.
  - left. auto.
Qed.

Lemma run_cons a l this (s : S) :
  run (a :: l) this s
  = ((run l (step a this s).1.1 (step a this s).1.2).1.1,
     (run l (step a this s).1.1 (step a this s).1.2).1.2,
     (step a this s).2 ++ (run l (step a this s).1.1 (step a this s).1.2).2).
Proof.
  cbn [run]. destruct (step a this s) as [[this' s'] evs]. cbn [fst snd].
  by destruct (run l this' s') as [[this'' s''] evs'].
Qed.

Lemma calls_app evs evs' : calls (evs ++ evs') = calls evs ++ calls evs'.
Proof. apply omap_app. Qed.

Lemma step_announces a this (s : S) :
  let this' := (step a this s).1.1 in
  let evs := (step a this s).2 in
  (forall cb v, (cb, v) ∈ calls evs -> v = state this')
  /\ (state this' = state this
      \/ calls evs = (fun cb => (cb, state this')) <$> onStateChangeCallbacks this').
Proof.
  cbv zeta.
  destruct (step_outcome a this s) as [[Hst [Hc | (c & -> & Hc)]] | [_ Hc]].
  - split; [| by left]. intros cb v. rewrite Hc. by intros ?%elem_of_nil.
  - split; [| by left]. intros cb v. rewrite Hc.
    intros [= -> ->]%list_elem_of_singleton. done.
  - split; [| by right]. intros cb v. rewrite Hc.
    by intros (c & [= -> ->] & _)%list_elem_of_fmap.
Qed.

(** Every document change is announced.  Whatever one step of the engine
    is ([initialize], [updateConfig], a polling tick, a stream or socket
    message, a publish, a registration), each callback it calls receives
    the document held after the step, and when the step replaces the
    document it calls every registered callback, once each and in order of
    registration, with the new document. *)
Theorem every_change_is_announced a this (s : S) :
  let this' := (step a this s).1.1 in
  let evs := (step a this s).2 in
  (forall cb v, (cb, v) ∈ calls evs -> v = state this')
  /\ (state this' = state this
      \/ calls evs = (fun cb => (cb, state this')) <$> onStateChangeCallbacks this').
Proof. exact (step_announces a this s). Qed.

(** The in-memory document is never [null] or [undefined].  From an engine
    that holds a document, whatever happens next, the engine still holds
    one and every callback is called with one: reading [lastUpdated] of
    [this.state] never throws. *)
Theorem document_never_nullish l this (s : S) :
  nullish (state this) = false ->
  nullish (state (run l this s).1.1) = false
  /\ forall cb v, (cb, v) ∈ calls (run l this s).2 -> nullish v = false.
Proof.
  revert this s. induction l as [| a l IH]; intros this s Hn.
  - split; [done |]. cbn. by intros cb v ?%elem_of_nil.
  - rewrite run_cons. cbn [fst snd].
    pose proof (step_announces a this s) as [Hcalls _].
    assert (nullish (state (step a this s).1.1) = false) as Hn'.
    { destruct (step_outcome a this s) as [[-> _] | [Hk _]]; auto. }
    destruct (IH _ (step a this s).1.2 Hn') as [IH1 IH2].
    split; [done |]. intros cb v. rewrite calls_app.
    intros [Hin | Hin]%elem_of_app; [| by eapply IH2].
    by rewrite (Hcalls cb v Hin).
Qed.

Lemma step_callbacks a this (s : S) :
  ~ registration a ->
  onStateChangeCallbacks (step a this s).1.1 = onStateChangeCallbacks this.
Proof.
  intros Ha.
  destruct a as [| id | | data | data | open | p now | c | c];
    cbn [step]; rewrite ?lifted_engine; try (by destruct Ha).
  - apply initialize_callbacks.
  - unfold updateConfig. rewrite initialize_callbacks. by destruct id.
  - unfold fetchState. destruct (truthy (getState s)); [| done].
    apply guarded_callbacks.
  - destruct data as [v |]; cbn [sse_onmessage]; [| done]. apply guarded_callbacks.
  - destruct data as [v |]; cbn [ws_onmessage]; [| done].
    destruct (nullish v); [done |].
    destruct (strict_equal_string _ _); [| done]. apply guarded_callbacks.
  - done.
  - unfold updateStateAndPublish. by destruct (saveState s _) as [[] s'].
Qed.

(** Subscribers survive everything but their own removal: a run of the
    engine in which no callback is registered or removed (it may
    initialise, reconfigure, poll, receive and publish) ends with the
    callbacks it started with, in the same order. *)
Theorem subscribers_are_kept l this (s : S) :
  Forall (fun a => ~ registration a) l ->
  onStateChangeCallbacks (run l this s).1.1 = onStateChangeCallbacks this.
Proof.
  intros Hl. revert this s.
  induction Hl as [| a l Ha _ IH]; intros this s; [done |].
  rewrite run_cons. cbn [fst snd]. rewrite IH. by apply step_callbacks.
Qed.

Lemma guarded_without_stamp v this :
  prop (state this) "lastUpdated" = VUndefined -> guarded v this = (this, []).
Proof. intros Hu. apply guarded_not_newer. rewrite Hu. apply greater_undefined_r. Qed.

Lemma remote_ignored_without_stamp l this (s : S) :
  prop (state this) "lastUpdated" = VUndefined ->
  Forall remote l ->
  run l this s = (this, s, []).
Proof.
  intros Hu Hl. induction Hl as [| a l Ha _ IH]; [done |].
  assert (step a this s = (this, s, [])) as Hstep.
  { destruct a as [| id | | data | data | open | p now | c | c];
      try (by destruct Ha); cbn [step].
    - unfold fetchState. destruct (truthy (getState s)); [| done].
      by rewrite guarded_without_stamp.
    - destruct data as [v |]; cbn [sse_onmessage]; [| done].
      by rewrite guarded_without_stamp.
    - destruct data as [v |]; cbn [ws_onmessage]; [| done].
      destruct (nullish v); [done |].
      destruct (strict_equal_string _ _); [| done].
      by rewrite guarded_without_stamp. }
  rewrite run_cons, Hstep. cbn [fst snd]. by rewrite IH.
Qed.

(** An engine whose document has no [lastUpdated] is deaf: no polling
    tick, stream message or socket message changes its document or calls a
    subscriber, whatever the remote documents are. *)
Theorem deaf_without_stamp l this (s : S) :
  prop (state this) "lastUpdated" = VUndefined ->
  Forall remote l ->
  run l this s = (this, s, []).
Proof. exact (remote_ignored_without_stamp l this s). Qed.

Lemma filter_absent (cb : callback) (l : list callback) :
  cb ∉ l -> filter (fun c => c <> cb) l = l.
Proof.
  induction l as [| c l IH]; [done |].
  intros [Hne Hl]%not_elem_of_cons.
  rewrite filter_cons_True by done. by rewrite IH.
Qed.

(** Registering a callback that is already registered registers it again:
    every later announcement calls it once per registration.  The function
    [onStateChange] returned, from either registration, removes all of
    them at once and leaves the other callbacks in place. *)
Theorem double_registration cb this :
  cb ∉ onStateChangeCallbacks this ->
  let once := (onStateChange cb this).1.1 in
  let twice := (onStateChange cb once).1.1 in
  let unsubscribe := (onStateChange cb once).2 in
  calls (notifyStateChange twice)
  = calls (notifyStateChange this) ++ [(cb, state this); (cb, state this)]
  /\ onStateChangeCallbacks (unsubscribe twice) = onStateChangeCallbacks this
  /\ unsubscribe (unsubscribe twice) = unsubscribe twice.
Proof.
  intros Hcb. cbv zeta. cbn [onStateChange fst snd].
  rewrite !calls_notify. cbn [with_callbacks onStateChangeCallbacks state].
  split; [by rewrite <- app_assoc, fmap_app |].
  assert (filter (fun c => c <> cb) ((onStateChangeCallbacks this ++ [cb]) ++ [cb])
          = onStateChangeCallbacks this) as Hf.
  { rewrite !filter_app, filter_absent by done.
    rewrite filter_cons_False, filter_nil by (intros Hne; by apply Hne).
    by rewrite !app_nil_r. }
  split.
  - unfold Sync.unsubscribe. cbn [with_callbacks onStateChangeCallbacks]. exact Hf.
  - unfold Sync.unsubscribe. cbn [with_callbacks onStateChangeCallbacks].
    rewrite Hf, filter_absent by done. done.
Qed.

End Engine.

(* --------------------------------------------------------------------- *)
(** ** The handlers of simplified-route.ts                                *)
(* --------------------------------------------------------------------- *)

Section SimplifiedHandlers.
Context `{!Builtins}.

Lemma prop_answer_state (a b : value) :
  prop (object [("success", a); ("state", b)]) "state" = b.
Proof. reflexivity. Qed.

(** The answer of [POST] tells what is stored.  A request is answered with
    200 and then the [state] field of the answer is the document stored
    after the request, or it is answered with 400 or 500 and then the
    stored document is the one from before. *)
Theorem simplified_answer_is_authoritative request now currentState :
  let answer := (SimplifiedRoute.POST request now currentState).1 in
  let stored := (SimplifiedRoute.POST request now currentState).2 in
  (status answer = 200%nat
   /\ prop (body answer) "success" = VBool true
   /\ prop (body answer) "state" = stored)
  \/ ((status answer = 400%nat \/ status answer = 500%nat)
      /\ stored = currentState).
Proof.
  cbv zeta. destruct request as [v |]; [| right; split; [by right | done]].
  destruct (passes_validation v) eqn:Hv.
  - destruct (admission v currentState) eqn:Ha.
    + left. by rewrite simplified_post_accept.
    + destruct (throwing v currentState) eqn:Ht.
      * right. rewrite simplified_post_throws by done. split; [by right | done].
      * left. by rewrite simplified_post_stale.
  - right. rewrite simplified_post_invalid by done. split; [by left | done].
Qed.

Lemma requests_invariant (P : Z -> Prop) rs cur :
  (forall r, r ∈ rs -> P r.2) ->
  cur = VNull
  \/ (passes_validation cur = true /\ exists n, stamp cur = Some n /\ P n) ->
  requests rs cur = VNull
  \/ (passes_validation (requests rs cur) = true
      /\ exists n, stamp (requests rs cur) = Some n /\ P n).
Proof.
  revert cur. induction rs as [| [r now] rs IH]; intros cur HP Hcur; [done |].
  cbn [requests fst snd]. apply IH.
  - intros r' Hr'. apply HP. by apply list_elem_of_further.
  - destruct r as [v |]; [| done].
    destruct (passes_validation v) eqn:Hv; [| by rewrite simplified_post_invalid].
    destruct (admission v cur) eqn:Ha; [| by rewrite simplified_post_kept].
    rewrite simplified_post_accept by done. cbn [snd]. right.
    split; [by apply passes_validation_assign |].
    exists now. split; [by apply stamp_assign |].
    apply (HP (Some v, now)). apply list_elem_of_here.
Qed.

Lemma requests_stored rs :
  let stored := requests rs SimplifiedRoute.initial in
  stored = VNull
  \/ (passes_validation stored = true
      /\ exists request now, (request, now) ∈ rs /\ stamp stored = Some now).
Proof.
  cbv zeta.
  destruct (requests_invariant (fun n => exists request, (request, n) ∈ rs) rs
              SimplifiedRoute.initial) as [-> | (Hv & n & Hn & r & Hr)].
  - intros [r now] Hr. by exists r.
  - by left.
  - by left.
  - right. split; [done |]. by exists r, n.
Qed.

(** What simplified-route.ts stores.  After any sequence of requests to a
    fresh handler the stored value is [null] (nothing was accepted yet) or
    an object or array whose [lastUpdated] is the reading of the server's
    clock at one of the requests: never a primitive, and never a stamp
    chosen by a client. *)
Theorem stored_document_is_server_stamped rs :
  let stored := requests rs SimplifiedRoute.initial in
  stored = VNull
  \/ (passes_validation stored = true
      /\ exists request now, (request, now) ∈ rs /\ stamp stored = Some now).
Proof. exact (requests_stored rs). Qed.

Lemma prop_wire_object own k :
  prop (VObj (omap Json.wire own)) k
  = default VUndefined (own !! k ≫= Json.wire).
Proof. unfold prop. cbn. by rewrite lookup_omap. Qed.

Lemma wire_valid v :
  passes_validation v = true ->
  exists w, Json.wire v = Some w /\ passes_validation w = true.
Proof.
  intros [[own ->] | (elems & own & ->)]%passes_validation_shape; cbn; eauto.
Qed.

(** What a valid document with a numeric stamp reads as after the wire:
    an object keeps its stamp, an array loses it. *)
Lemma wire_stamp v n :
  passes_validation v = true -> stamp v = Some n ->
  exists w, Json.wire v = Some w /\ passes_validation w = true
            /\ (prop w "lastUpdated" = VNum n \/ prop w "lastUpdated" = VUndefined).
Proof.
  intros [[own ->] | (elems & own & ->)]%passes_validation_shape Hn.
  - eexists. split; [reflexivity |]. split; [done |]. left.
    apply stamp_Some in Hn. unfold prop in Hn. cbn in Hn.
    rewrite prop_wire_object.
    destruct (own !! "lastUpdated") as [x |]; cbn in *; [| done]. by subst.
  - eexists. split; [reflexivity |]. split; [done |]. right.
    unfold prop. cbn [own_props]. rewrite lookup_union, lookup_empty.
    by rewrite index_props_named.
Qed.

(** Sending back what [GET] returned.  On a handler that has accepted a
    document, posting the body of [GET] changes nothing, whatever the
    clock reads.  On a fresh handler [GET] returns [{}], and posting that
    stores an object that has nothing but the server's stamp. *)
Theorem repost_of_get rs now :
  let stored := requests rs SimplifiedRoute.initial in
  let back := Json.wire (body (SimplifiedRoute.GET stored)) in
  (SimplifiedRoute.POST back now stored).2
  = if truthy stored then stored else object [("lastUpdated", VNum now)].
Proof.
  cbv zeta.
  destruct (requests_stored rs)
    as [-> | (Hv & _ & n & _ & Hn)]; [done |].
  pose proof (passes_validation_truthy _ Hv) as Ht. rewrite Ht.
  unfold SimplifiedRoute.GET. rewrite or_else_truthy by done. cbn [body json].
  destruct (wire_stamp _ n Hv Hn) as (w & -> & Hw & Hs).
  apply simplified_post_kept.
  unfold admission. rewrite Ht. cbn [negb orb].
  destruct Hs as [-> | ->]; [| apply greater_undefined_l].
  rewrite (stamp_Some _ _ Hn). apply greater_irrefl.
Qed.

End SimplifiedHandlers.

(* --------------------------------------------------------------------- *)
(** ** ServerStorageAdapter against simplified-route.ts                   *)
(* --------------------------------------------------------------------- *)

#[local] Existing Instance ServerStorage.server_adapter.

Section ServerAdapter.
Context `{!Builtins}.
Import ServerStorage.

Lemma map_fold_max_ge (m : gmap string nat) k d :
  m !! k = Some d -> (d <= map_fold (fun _ d acc => max d acc) 0%nat m)%nat.
Proof.
  revert k d. induction m as [| i x m Hi Hfold IH] using map_first_key_ind.
  - intros k d. by rewrite lookup_empty.
  - intros k d. rewrite map_fold_insert_first_key by done.
    rewrite lookup_insert. case_decide.
    + intros [= ->]. lia.
    + intros Hk. specialize (IH _ _ Hk). lia.
Qed.

Lemma foldr_max_ge (l : list nat) d : d ∈ l -> (d <= foldr max 0%nat l)%nat.
Proof. induction 1; cbn; lia. Qed.

Lemma depth_property own k v : own !! k = Some v -> (depth v < depth (VObj own))%nat.
Proof.
  intros Hk. cbn.
  assert ((depth <$> own) !! k = Some (depth v)) as Hd
    by (by rewrite lookup_fmap, Hk).
  apply map_fold_max_ge in Hd. lia.
Qed.

Lemma depth_element elems own v : v ∈ elems -> (depth v < depth (VArr elems own))%nat.
Proof.
  intros Hin. cbn.
  assert (depth v ∈ depth <$> elems) as Hd by (by apply list_elem_of_fmap_2).
  apply foldr_max_ge in Hd. lia.
Qed.

(** What has crossed the wire once crosses it unchanged. *)
Lemma wire_idempotent v w : Json.wire v = Some w -> Json.wire w = Some w.
Proof.
  remember (depth v) as n eqn:Hn. revert v w Hn.
  induction n as [n IH] using lt_wf_ind. intros v w -> Hw.
  destruct v; cbn in Hw; try discriminate; injection Hw as <-; try done.
  - cbn. f_equal. f_equal. rewrite <- list_fmap_compose.
    apply Forall_fmap_ext, Forall_forall. intros e He. cbn.
    destruct (Json.wire e) as [w |] eqn:Hw; [| done]. cbn.
    by rewrite (IH _ (depth_element elems own e He) e w eq_refl Hw).
  - cbn. f_equal. f_equal. apply map_eq. intros k.
    rewrite !lookup_omap. destruct (own !! k) as [v |] eqn:Hk; [| done]. cbn.
    destruct (Json.wire v) as [w |] eqn:Hw; [| done]. cbn.
    by apply (IH _ (depth_property own k v Hk) v w eq_refl).
Qed.

Lemma omap_wire_idempotent (own : gmap string value) :
  omap Json.wire (omap Json.wire own) = omap Json.wire own.
Proof.
  pose proof (wire_idempotent (VObj own) _ eq_refl) as Hw.
  cbn in Hw. by injection Hw.
Qed.

Lemma wire_truthy v :
  truthy v = true -> exists w, Json.wire v = Some w /\ truthy w = true.
Proof. destruct v; cbn; try discriminate; eauto. Qed.

Lemma with_currentState_same srv : with_currentState (currentState srv) srv = srv.
Proof. by destruct srv. Qed.

Lemma ok_200 b : ok (json b) = true.
Proof. reflexivity. Qed.

Lemma server_save srv state :
  (saveState srv state).1
  = reachable srv
    && match Json.wire state with
       | Some sent =>
           passes_validation sent && negb (throwing sent (currentState srv))
       | None => false
       end
  /\ (forall sent,
        reachable srv = true ->
        Json.wire state = Some sent ->
        passes_validation sent = true ->
        admission sent (currentState srv) = false ->
        throwing sent (currentState srv) = false ->
        saveState srv state = (true, srv)).
Proof.
  split.
  - unfold saveState, fetch_post. destruct (reachable srv); [| done].
    cbn [andb]. destruct (Json.wire state) as [w |]; [| done].
    destruct (passes_validation w) eqn:Hv;
      [| by rewrite simplified_post_invalid].
    destruct (throwing w (currentState srv)) eqn:Ht;
      [by rewrite simplified_post_throws |].
    destruct (admission w (currentState srv)) eqn:Ha.
    + by rewrite simplified_post_accept.
    + by rewrite simplified_post_stale.
  - intros sent Hr Hs Hv Ha Ht. unfold saveState, fetch_post. rewrite Hr, Hs.
    rewrite simplified_post_stale by done. cbn.
    by rewrite with_currentState_same.
Qed.

(** What [saveState] of [ServerStorageAdapter] reports.  It returns [true]
    exactly when the server is reached, what JSON carries of the document
    is an object or an array, and the server's comparison of its
    [lastUpdated] with the stored one does not throw.  In particular it
    returns [true] when the server turned the document down as not newer
    than the stored one: then nothing was stored and the server is as
    before. *)
Theorem server_save_result srv state :
  (saveState srv state).1
  = reachable srv
    && match Json.wire state with
       | Some sent =>
           passes_validation sent && negb (throwing sent (currentState srv))
       | None => false
       end
  /\ (forall sent,
        reachable srv = true ->
        Json.wire state = Some sent ->
        passes_validation sent = true ->
        admission sent (currentState srv) = false ->
        throwing sent (currentState srv) = false ->
        saveState srv state = (true, srv)).
Proof. exact (server_save srv state). Qed.

Lemma server_read srv :
  (reachable srv = true ->
   truthy (getState srv) = true
   /\ (truthy (currentState srv) = false -> getState srv = object [])
   /\ (truthy (currentState srv) = true ->
       Json.wire (currentState srv) = Some (getState srv)))
  /\ (reachable srv = false -> getState srv = VNull).
Proof.
  split; intros Hr; unfold getState, fetch_get; rewrite Hr; [| done].
  unfold SimplifiedRoute.GET, or_else, response_json.
  destruct (truthy (currentState srv)) eqn:Ht; cbn.
  - destruct (wire_truthy _ Ht) as (w & -> & Hw). done.
  - done.
Qed.

(** What [getState] of [ServerStorageAdapter] returns.  When the server is
    reached the result is never falsy: a server that stores nothing is
    read as [{}], not as [null], so the callers' tests [if (state)] and
    [if (savedState)] pass.  When the server is not reached the result is
    [null]. *)
Theorem server_read_is_truthy srv :
  (reachable srv = true ->
   truthy (getState srv) = true
   /\ (truthy (currentState srv) = false -> getState srv = object [])
   /\ (truthy (currentState srv) = true ->
       Json.wire (currentState srv) = Some (getState srv)))
  /\ (reachable srv = false -> getState srv = VNull).
Proof. exact (server_read srv). Qed.

(** A save that the server accepts, read back.  When an object is saved
    and the server takes it (nothing is stored, or its [lastUpdated] is
    greater than the stored one), [getState] then returns what JSON
    carries of the object with [lastUpdated] replaced by the reading of
    the server's clock: the stamp the writer put is not the stamp the
    readers get. *)
Theorem server_round_trip srv own :
  reachable srv = true ->
  admission (VObj (omap Json.wire own)) (currentState srv) = true ->
  let after := (saveState srv (VObj own)).2 in
  (saveState srv (VObj own)).1 = true
  /\ currentState after
     = VObj (<["lastUpdated" := VNum (clock srv)]> (omap Json.wire own))
  /\ getState after
     = VObj (<["lastUpdated" := VNum (clock srv)]> (omap Json.wire own)).
Proof.
  intros Hr Ha. cbv zeta. unfold saveState, fetch_post. rewrite Hr.
  cbn [Json.wire]. rewrite simplified_post_accept by done.
  rewrite !ok_200. cbn [fst snd negb]. split; [done |]. split; [done |].
  unfold getState, fetch_get. cbn [reachable with_currentState currentState].
  rewrite Hr. unfold SimplifiedRoute.GET, response_json. cbn.
  f_equal. erewrite omap_insert_Some by reflexivity.
  by rewrite omap_wire_idempotent.
Qed.

End ServerAdapter.

(* --------------------------------------------------------------------- *)
(** ** The engine and route.ts over ServerStorageAdapter                  *)
(* --------------------------------------------------------------------- *)

Section OverTheNetwork.
Context `{!Builtins}.
Import ServerStorage.

Lemma guarded_newer v this :
  nullish v = false -> nullish (state this) = false ->
  greater (prop v "lastUpdated") (prop (state this) "lastUpdated") = true ->
  guarded v this = (with_state v this, notifyStateChange (with_state v this)).
Proof.
  intros Hv Hs Hg%greater_true. unfold guarded, updateState.
  by rewrite Hv, Hs, Hg.
Qed.

Lemma server_read_empty srv :
  reachable srv = true -> truthy (currentState srv) = false ->
  Adapter.getState srv = object [].
Proof. intros Hr Ht. by apply (server_read srv). Qed.

(** An engine that starts against a server that stores nothing.
    [initialize] reads [{}], takes it for a saved document, replaces the
    default document by it and calls every subscriber with it.  The engine
    is then deaf: no polling tick or pushed message changes its document
    again, whatever the server comes to hold. *)
Theorem initialize_against_empty_endpoint this srv :
  isInitialized this = false ->
  reachable srv = true ->
  truthy (currentState srv) = false ->
  let this' := (initialize this srv).1 in
  state this' = object []
  /\ calls (initialize this srv).2
     = (fun cb => (cb, object [])) <$> onStateChangeCallbacks this
  /\ forall l (srv' : server),
       Forall remote l -> run l this' srv' = (this', srv', []).
Proof.
  intros Hi Hr Ht. cbv zeta. unfold initialize.
  rewrite Hi, (server_read_empty srv Hr Ht). cbn [truthy object fst snd].
  split; [done |]. split; [by rewrite calls_notify |].
  intros l srv' Hl. by apply remote_ignored_without_stamp.
Qed.

(** A publish that is reported as done and then lost.  The server holds an
    object stamped [c] and the engine publishes when its own clock reads
    [now <= c].  The server answers 200 and keeps its document, so
    [updateStateAndPublish] returns [true] and the engine holds the edit,
    stamped [now].  When [now < c] the next polling tick replaces the
    engine's document by the server's: the edit is gone. *)
Theorem reported_publish_can_be_lost partialState now this srv own c :
  reachable srv = true ->
  currentState srv = VObj own ->
  own !! "lastUpdated" = Some (VNum c) ->
  now <= c ->
  let published := updateStateAndPublish partialState now this srv in
  published.1.1.1 = true
  /\ published.1.2 = srv
  /\ prop (state published.1.1.2) "lastUpdated" = VNum now
  /\ (now < c ->
      state (fetchState published.1.1.2 srv).1 = VObj (omap Json.wire own)).
Proof.
  intros Hr Hcur Hc Hle. cbv zeta. unfold updateStateAndPublish.
  set (newState := VObj (<["lastUpdatedBy" := VStr (clientId this)]>
                           (<["lastUpdated" := VNum now]>
                              (own_props partialState ∪ own_props (state this))))).
  assert (prop newState "lastUpdated" = VNum now) as Hstamp.
  { unfold prop. cbn. by rewrite lookup_insert_ne, lookup_insert_eq. }
  assert (Adapter.saveState srv newState = (true, srv)) as Hsave.
  { assert (prop (VObj own) "lastUpdated" = VNum c) as Hheld
      by (unfold prop; cbn; by rewrite Hc).
    eapply (server_save srv newState); [done | reflexivity | done | |].
    - unfold admission. rewrite Hcur, Hheld. cbn [truthy negb orb].
      rewrite prop_wire_object.
      rewrite lookup_insert_ne, lookup_insert_eq by done. cbn.
      apply Z.ltb_ge. lia.
    - apply typed_not_throwing; right; [exists now | exists c; by rewrite Hcur].
      rewrite prop_wire_object.
      by rewrite lookup_insert_ne, lookup_insert_eq by done. }
  rewrite Hsave. cbn [negb fst snd with_state state].
  split; [done |]. split; [done |]. split; [done |].
  intros Hlt. unfold fetchState.
  assert (Adapter.getState srv = VObj (omap Json.wire own)) as ->.
  { destruct (server_read srv) as [Hread _].
    destruct (Hread Hr) as (_ & _ & Hw).
    rewrite Hcur in Hw. specialize (Hw eq_refl). cbn in Hw. by injection Hw. }
  cbn [truthy]. rewrite guarded_newer; [done | done | done |].
  change (state (with_state newState this)) with newState.
  rewrite Hstamp, prop_wire_object, Hc. cbn. apply Z.ltb_lt. lia.
Qed.

Lemma route_before_first_document registry request now srv :
  truthy (currentState srv) = false ->
  (Route.POST registry request now srv).1.2 = srv
  /\ (Route.POST registry request now srv).2 = []
  /\ forall v,
       request = Some v -> passes_validation v = true ->
       (Route.POST registry request now srv).1.1
       = if reachable srv && negb (throwing v (object []))
         then json (object [("success", VBool true); ("state", v)])
         else failure 500 "Failed to update state".
Proof.
  intros Ht. destruct request as [v |]; [| by split; [| split]].
  destruct (passes_validation v) eqn:Hv.
  2: { rewrite route_post_invalid by done. split; [done |]. split; [done |].
       intros ? [= <-] Hv'. congruence. }
  destruct (reachable srv) eqn:Hr; cbn [andb].
  - pose proof (server_read_empty srv Hr Ht) as Hg.
    assert (admission v (Adapter.getState srv) = false) as Ha.
    { unfold admission. rewrite Hg.
      cbn [truthy object negb orb]. apply greater_undefined_r. }
    destruct (throwing v (object [])) eqn:Hthrow; cbn [negb].
    + rewrite route_post_throws; [| done | by rewrite Hg].
      split; [done |]. split; [done |]. intros ? [= <-] _. by rewrite Hthrow.
    + rewrite route_post_stale; [| done | done | by rewrite Hg].
      split; [done |]. split; [done |]. intros ? [= <-] _. by rewrite Hthrow.
  - assert (Adapter.getState srv = VNull) as Hg
      by (by apply (server_read srv)).
    erewrite route_post_not_saved; [| done | |].
    + split; [done |]. split; [done |]. by intros ? [= <-] _.
    + unfold admission. by rewrite Hg.
    + cbn. unfold saveState, fetch_post. by rewrite Hr.
Qed.

(** route.ts takes [ServerStorageAdapter] for its adapter.  While the
    endpoint behind that adapter stores nothing, route.ts stores nothing
    either and writes no frame, whatever is posted to it.  When the
    endpoint is reached its [{}] passes for a stored document without
    stamp, so a candidate is answered 200 and dropped, or answered 500
    when comparing its [lastUpdated] with the missing one throws; when
    the endpoint is not reached every candidate is answered 500. *)
Theorem route_cannot_create_first_document registry request now srv :
  truthy (currentState srv) = false ->
  (Route.POST registry request now srv).1.2 = srv
  /\ (Route.POST registry request now srv).2 = []
  /\ forall v,
       request = Some v -> passes_validation v = true ->
       (Route.POST registry request now srv).1.1
       = if reachable srv && negb (throwing v (object []))
         then json (object [("success", VBool true); ("state", v)])
         else failure 500 "Failed to update state".
Proof. exact (route_before_first_document registry request now srv). Qed.

End OverTheNetwork.

(* --------------------------------------------------------------------- *)
(** ** route.ts over the adapter it builds                                *)
(* --------------------------------------------------------------------- *)

Section RouteOverItsAdapter.
Context `{!Builtins} {S : Type} `{!DbAdapter S}.
Import ServerStorage.

(** What a save leaves at the endpoint: what its handler makes of the
    document sent, when it is reached. *)
Lemma server_save_currentState srv d :
  currentState (saveState srv d).2
  = if reachable srv
    then (SimplifiedRoute.POST (Json.wire d) (clock srv) (currentState srv)).2
    else currentState srv.
Proof.
  unfold saveState, fetch_post. destruct (reachable srv); [| done].
  destruct (SimplifiedRoute.POST _ _ _) as [r cur]. cbn.
  by destruct (negb (ok r)).
Qed.

(** One request through route.ts, with the endpoint's clock at [e >= t]:
    the endpoint keeps its document or replaces it by one stamped [e]. *)
Lemma relayed_step registry r now e t srv :
  t <= e -> stamped_by t (currentState srv) ->
  let srv' := (Route.POST registry r now (with_clock e srv)).1.2 in
  not_older (currentState srv) (currentState srv')
  /\ stamped_by e (currentState srv').
Proof.
  intros Ht Hcur srv'. subst srv'.
  destruct (route_post_cases registry r now (with_clock e srv))
    as [-> | (v & -> & Hv & Ha & ->)].
  - split; [apply not_older_refl |]. intros n Hn. specialize (Hcur n Hn).
    cbn in Hn |- *. lia.
  - cbn [Adapter.saveState server_adapter]. rewrite server_save_currentState.
    cbn [reachable clock currentState with_clock].
    destruct (reachable srv).
    + by apply simplified_post_step with (t := t).
    + split; [apply not_older_refl |]. intros n Hn. specialize (Hcur n Hn). lia.
Qed.

Lemma relayed_not_older registry rs t srv :
  ticking t (endpoint_readings rs) -> stamped_by t (currentState srv) ->
  not_older (currentState srv) (currentState (relayed registry rs srv)).
Proof.
  revert t srv. induction rs as [| [[r now] e] rs IH]; intros t srv Ht Hcur; cbn.
  - apply not_older_refl.
  - destruct Ht as [Ht Hrs]. cbn in Ht, Hrs.
    destruct (relayed_step registry r now e t srv Ht Hcur) as [H1 H2].
    eapply not_older_trans; [exact H1 | by eapply IH].
Qed.

Lemma relayed_app registry rs rs' srv :
  relayed registry (rs ++ rs') srv = relayed registry rs' (relayed registry rs srv).
Proof. revert srv. induction rs as [| r rs IH]; intros srv; cbn; [done | apply IH]. Qed.

Lemma relayed_prefix registry rs rs' t srv :
  ticking t (endpoint_readings (rs ++ rs')) -> stamped_by t (currentState srv) ->
  exists t', ticking t' (endpoint_readings rs')
             /\ stamped_by t' (currentState (relayed registry rs srv)).
Proof.
  revert t srv. induction rs as [| [[r now] e] rs IH]; intros t srv Ht Hcur; cbn.
  - by exists t.
  - destruct Ht as [Ht Hrs]. cbn in Ht, Hrs.
    destruct (relayed_step registry r now e t srv Ht Hcur) as [_ H2].
    by eapply IH.
Qed.

(** C8, as amended.  A candidate whose [lastUpdated] is not greater than
    the held one is not taken: a handler leaves the stored document alone
    (route.ts saves and writes nothing), an engine keeps its copy and
    calls nobody.  Along any sequence of remote documents reaching an
    engine whose [lastUpdated] is a number or missing, the document held
    at any point is not older than the one held at any earlier point.  A
    handler stores what it takes with the reading of its clock, not with
    the stamp submitted: a request keeps the store or stores an admitted
    candidate stamped with the clock.  So the stored stamp does not
    decrease along requests handled with clock readings that do not
    decrease, from a store whose stamp is not ahead of the clock; this
    holds of simplified-route.ts and of the endpoint behind the adapter
    of route.ts. *)
Theorem held_stamp_never_decreases registry :
  (forall v now currentState,
     truthy currentState = true ->
     greater (prop v "lastUpdated") (prop currentState "lastUpdated") = false ->
     (SimplifiedRoute.POST (Some v) now currentState).2 = currentState)
  /\ (forall v now (s : S),
        truthy (Adapter.getState s) = true ->
        greater (prop v "lastUpdated") (prop (Adapter.getState s) "lastUpdated") = false ->
        (Route.POST registry (Some v) now s).1.2 = s
        /\ (Route.POST registry (Some v) now s).2 = [])
  /\ (forall v this,
        greater (prop v "lastUpdated") (prop (state this) "lastUpdated") = false ->
        guarded v this = (this, []))
  /\ (forall vs ws this,
        Forall typed (vs ++ ws) ->
        not_older (state (deliveries vs this)) (state (deliveries (vs ++ ws) this)))
  /\ (forall request now currentState,
        (SimplifiedRoute.POST request now currentState).2 = currentState
        \/ exists v, request = Some v
             /\ admission v currentState = true
             /\ (SimplifiedRoute.POST request now currentState).2
                = assign v "lastUpdated" (VNum now))
  /\ (forall rs rs' t currentState,
        ticking t (rs ++ rs') -> stamped_by t currentState ->
        not_older (requests rs currentState) (requests (rs ++ rs') currentState))
  /\ (forall rs rs' t srv,
        ticking t (endpoint_readings (rs ++ rs')) ->
        stamped_by t (currentState srv) ->
        not_older (currentState (relayed registry rs srv))
                  (currentState (relayed registry (rs ++ rs') srv))).
Proof.
  split; [| split; [| split; [| split; [| split; [| split]]]]].
  - intros v now cur Hc Hg. apply simplified_post_kept.
    unfold admission. by rewrite Hc, Hg.
  - intros v now s Hc Hg. apply route_post_kept.
    unfold admission. by rewrite Hc, Hg.
  - apply guarded_not_newer.
  - intros vs ws this [_ Hws]%Forall_app.
    rewrite deliveries_app. by apply deliveries_not_older.
  - intros [v |] now cur; [| by left].
    destruct (passes_validation v) eqn:Hv;
      [| left; by rewrite simplified_post_invalid].
    destruct (admission v cur) eqn:Ha; [| left; by apply simplified_post_kept].
    right. exists v. by rewrite simplified_post_accept.
  - intros rs rs' t cur Ht Hs.
    destruct (requests_prefix rs rs' t cur Ht Hs) as (t' & Ht' & Hs').
    rewrite requests_app. by eapply requests_not_older.
  - intros rs rs' t srv Ht Hs.
    destruct (relayed_prefix registry rs rs' t srv Ht Hs) as (t' & Ht' & Hs').
    rewrite relayed_app. by eapply relayed_not_older.
Qed.

(** C10, as amended: an array passes the validation of both handlers, so
    a request with an array body is never answered with 400.  In
    simplified-route.ts, when nothing is stored, the array is stamped with
    the server's clock and stored.  In route.ts, when its adapter reads no
    document, the stamped array is handed to [saveState] and the request
    is answered 500 when that fails.  With the adapter route.ts builds,
    while the endpoint behind it stores nothing, the array is never
    stored. *)
Theorem array_body_is_candidate elems own registry now :
  let newState := VArr elems own in
  let stamped := VArr elems (<["lastUpdated" := VNum now]> own) in
  passes_validation newState = true
  /\ (forall currentState,
        let answer := (SimplifiedRoute.POST (Some newState) now currentState).1 in
        status answer = 200%nat
        \/ (throwing newState currentState = true /\ status answer = 500%nat))
  /\ (forall s : S, status (Route.POST registry (Some newState) now s).1.1 <> 400%nat)
  /\ SimplifiedRoute.POST (Some newState) now SimplifiedRoute.initial
     = (json (object [("success", VBool true); ("state", stamped)]), stamped)
  /\ stamp stamped = Some now
  /\ (forall s : S,
        truthy (Adapter.getState s) = false ->
        Route.POST registry (Some newState) now s
        = if (Adapter.saveState s stamped).1
          then (json (object [("success", VBool true); ("state", stamped)]),
                (Adapter.saveState s stamped).2, Route.notifyClients registry stamped)
          else (failure 500 "Failed to update state", (Adapter.saveState s stamped).2, []))
  /\ (forall srv : server,
        truthy (currentState srv) = false ->
        (Route.POST registry (Some newState) now srv).1.2 = srv
        /\ (Route.POST registry (Some newState) now srv).2 = []).
Proof.
  intros newState stamped.
  assert (passes_validation newState = true) as Hv by done.
  split; [done |]. split; [| split; [| split; [| split; [| split]]]].
  - intros cur. cbv zeta. destruct (admission newState cur) eqn:Ha.
    + left. by rewrite simplified_post_accept.
    + destruct (throwing newState cur) eqn:Ht.
      * right. by rewrite simplified_post_throws.
      * left. by rewrite simplified_post_stale.
  - intros s. destruct (admission newState (Adapter.getState s)) eqn:Ha.
    + destruct (Adapter.saveState s (assign newState "lastUpdated" (VNum now)))
        as [[] s'] eqn:Hs.
      * by erewrite route_post_saved.
      * by erewrite route_post_not_saved.
    + destruct (throwing newState (Adapter.getState s)) eqn:Ht.
      * by rewrite route_post_throws.
      * by rewrite route_post_stale.
  - done.
  - apply (stamp_assign newState now Hv).
  - intros s Hc.
    assert (admission newState (Adapter.getState s) = true) as Ha
      by (unfold admission; by rewrite Hc).
    change stamped with (assign newState "lastUpdated" (VNum now)).
    destruct (Adapter.saveState s (assign newState "lastUpdated" (VNum now)))
      as [[] s'] eqn:Hs; cbn [fst snd].
    + by apply route_post_saved.
    + by apply route_post_not_saved.
  - intros srv Hc.
    destruct (route_before_first_document registry (Some newState) now srv Hc)
      as (H1 & H2 & _).
    done.
Qed.

End RouteOverItsAdapter.

(* --------------------------------------------------------------------- *)
(** ** The persistence test of verify-deployment.ts                       *)
(* --------------------------------------------------------------------- *)

Section PersistenceTest.
Context `{!Builtins}.
Import ServerStorage Verify.

Lemma read_reachable srv :
  reachable srv = true ->
  exists r, fetch_get srv = Some r /\ ok r = true
            /\ response_json r = Some (getState srv)
            /\ truthy (getState srv) = true.
Proof.
  intros Hr. destruct (server_read srv) as [Hread _].
  destruct (Hread Hr) as (Ht & _ & _).
  unfold getState, fetch_get in *. rewrite Hr in *.
  eexists. split; [reflexivity |]. split; [reflexivity |].
  split; [| exact Ht].
  unfold SimplifiedRoute.GET, response_json, or_else in *. cbn in *.
  destruct (truthy (currentState srv)) eqn:Hc; cbn; [| done].
  by destruct (wire_truthy _ Hc) as (w & -> & _).
Qed.

Lemma toggled_differs v :
  strict_equal_string (prop v "controlMode") (toggled v) = false.
Proof.
  unfold toggled.
  destruct (strict_equal_string (prop v "controlMode") "auto") eqn:He; [| done].
  destruct (prop v "controlMode"); try discriminate.
  cbn in He. apply String.eqb_eq in He as ->. done.
Qed.

Lemma strict_equal_string_refl s : strict_equal_string (VStr s) s = true.
Proof. cbn. apply String.eqb_refl. Qed.

Lemma update_sent_stamp now1 original :
  prop (update_sent now1 original) "lastUpdated" = VNum now1.
Proof.
  unfold update_sent. rewrite prop_wire_object.
  by rewrite lookup_insert_ne, lookup_insert_eq by done.
Qed.

Lemma update_sent_mode now1 original :
  prop (update_sent now1 original) "controlMode" = VStr (toggled original).
Proof.
  unfold update_sent. rewrite prop_wire_object.
  by rewrite !lookup_insert_ne, lookup_insert_eq by done.
Qed.

Lemma reachable_with_currentState v srv :
  reachable (with_currentState v srv) = reachable srv.
Proof. reflexivity. Qed.

(** What the script sends to restore the original, seen by the handler. *)
Lemma restore_sent_stamp now2 original own :
  own = <["lastUpdatedBy" := VStr "verification-script"]>
          (<["lastUpdated" := VNum now2]> (own_props original)) ->
  prop (VObj (omap Json.wire own)) "lastUpdated" = VNum now2
  /\ prop (VObj (omap Json.wire own)) "controlMode"
     = default VUndefined (own_props original !! "controlMode" ≫= Json.wire).
Proof.
  intros ->. rewrite !prop_wire_object. split.
  - by rewrite lookup_insert_ne, lookup_insert_eq by done.
  - by rewrite !lookup_insert_ne by done.
Qed.

Lemma admission_update now1 original cur :
  admission (update_sent now1 original) cur
  = negb (truthy cur) || greater (VNum now1) (prop cur "lastUpdated").
Proof. unfold admission. by rewrite update_sent_stamp. Qed.

(** The run of the script when the server takes its update: the update is
    stored with the server's stamp, read back, found to carry the new
    control mode, and the restore is sent. *)
Lemma persistence_test_accepted now1 now2 later srv :
  reachable srv = true ->
  admission (update_sent now1 (getState srv)) (currentState srv) = true ->
  let original := getState srv in
  let stored := assign (update_sent now1 original) "lastUpdated" (VNum (clock srv)) in
  let restored :=
    VObj (omap Json.wire
            (<["lastUpdatedBy" := VStr "verification-script"]>
               (<["lastUpdated" := VNum now2]> (own_props original)))) in
  testStatePersistence now1 now2 later srv
  = (true,
     with_currentState (SimplifiedRoute.POST (Some restored) later stored).2
       (with_clock later srv)).
Proof.
  intros Hr Ha original stored restored.
  destruct (read_reachable srv Hr) as (r & Hget & Hok & Hjson & Ht).
  unfold testStatePersistence. rewrite Hget, Hok. cbn [negb].
  rewrite Hjson, (truthy_not_nullish _ Ht). fold original.
  unfold fetch_post at 1. rewrite Hr. cbn [Json.wire].
  fold (update_sent now1 original).
  rewrite simplified_post_accept by done. rewrite ok_200. cbn [negb].
  fold stored.
  destruct (read_reachable (with_currentState stored srv) Hr)
    as (r' & Hget' & Hok' & Hjson' & Ht').
  rewrite Hget', Hok'. cbn [negb]. rewrite Hjson', (truthy_not_nullish _ Ht').
  assert (prop (getState (with_currentState stored srv)) "controlMode"
          = VStr (toggled original)) as Hmode.
  { destruct (server_read (with_currentState stored srv)) as [Hread _].
    destruct (Hread Hr) as (_ & _ & Hw).
    cbn [currentState with_currentState] in Hw. specialize (Hw eq_refl).
    remember (getState (with_currentState stored srv)) as read eqn:Hread'.
    clear Hread'. subst stored. cbn in Hw. injection Hw as <-.
    rewrite prop_wire_object, lookup_insert_ne by done.
    rewrite lookup_omap, !lookup_insert_ne, lookup_insert_eq by done. done. }
  rewrite Hmode, strict_equal_string_refl. cbn [negb].
  unfold fetch_post. cbn [reachable with_clock with_currentState]. rewrite Hr.
  cbn [Json.wire currentState clock with_clock with_currentState]. fold restored.
  by destruct (SimplifiedRoute.POST (Some restored) later stored).
Qed.

Lemma persistence_test_rejected now1 now2 later srv :
  reachable srv = true ->
  admission (update_sent now1 (getState srv)) (currentState srv) = false ->
  testStatePersistence now1 now2 later srv = (false, srv).
Proof.
  intros Hr Ha.
  destruct (read_reachable srv Hr) as (r & Hget & Hok & Hjson & Ht).
  unfold testStatePersistence. rewrite Hget, Hok. cbn [negb].
  rewrite Hjson, (truthy_not_nullish _ Ht).
  unfold fetch_post at 1. rewrite Hr. cbn [Json.wire].
  fold (update_sent now1 (getState srv)).
  destruct (throwing (update_sent now1 (getState srv)) (currentState srv))
    eqn:Hthrow.
  { rewrite simplified_post_throws by done. cbn [ok failure status negb].
    cbn. by rewrite with_currentState_same. }
  rewrite simplified_post_stale by done. rewrite ok_200. cbn [negb].
  rewrite with_currentState_same, Hget, Hok. cbn [negb].
  rewrite Hjson, (truthy_not_nullish _ Ht).
  by rewrite toggled_differs.
Qed.

(** When the persistence test passes.  Against a server that is reached,
    [testStatePersistence] returns [true] exactly when the server takes
    the script's update: nothing is stored, or the reading of the script's
    clock is greater than the stored [lastUpdated].  Against a server that
    is not reached it returns [false]. *)
Theorem persistence_test_result now1 now2 later srv :
  (reachable srv = true ->
   (testStatePersistence now1 now2 later srv).1
   = negb (truthy (currentState srv))
     || greater (VNum now1) (prop (currentState srv) "lastUpdated"))
  /\ (reachable srv = false ->
      testStatePersistence now1 now2 later srv = (false, srv)).
Proof.
  split; intros Hr; [| unfold testStatePersistence, fetch_get; by rewrite Hr].
  rewrite <- (admission_update now1 (getState srv)).
  destruct (admission (update_sent now1 (getState srv)) (currentState srv)) eqn:Ha.
  - by rewrite persistence_test_accepted.
  - by rewrite persistence_test_rejected.
Qed.

Lemma wired_control_mode v original :
  Json.wire v = Some original ->
  own_props original !! "controlMode" ≫= Json.wire
  = own_props original !! "controlMode".
Proof.
  destruct v; cbn; try discriminate; intros [= <-]; cbn [own_props]; try done.
  - by rewrite index_props_named.
  - by rewrite lookup_union, lookup_empty, index_props_named.
  - rewrite lookup_omap. destruct (own !! "controlMode") as [x |]; [| done]. cbn.
    destruct (Json.wire x) as [w |] eqn:Hw; [| done]. cbn.
    by apply wire_idempotent in Hw.
Qed.

(** What a passed test leaves behind.  The script restores the original
    document with a second reading [now2] of its own clock, and does not
    look at the answer.  The server stamped the update with its own clock:
    when [now2] is not greater than that stamp the restore is turned down,
    the test still returns [true], and the server is left with the control
    mode the script switched to.  When [now2] is greater the control mode
    is the original one again. *)
Theorem persistence_test_can_leave_mode_toggled now1 now2 later srv :
  reachable srv = true ->
  (testStatePersistence now1 now2 later srv).1 = true ->
  let original := getState srv in
  let after := currentState (testStatePersistence now1 now2 later srv).2 in
  (now2 <= clock srv -> prop after "controlMode" = VStr (toggled original))
  /\ (clock srv < now2 -> prop after "controlMode" = prop original "controlMode").
Proof.
  intros Hr Hpass. cbv zeta.
  assert (admission (update_sent now1 (getState srv)) (currentState srv) = true) as Ha.
  { destruct (admission _ _) eqn:Ha; [done |].
    by rewrite persistence_test_rejected in Hpass. }
  rewrite persistence_test_accepted by done.
  cbn [snd currentState with_currentState].
  set (original := getState srv).
  set (stored := assign (update_sent now1 original) "lastUpdated" (VNum (clock srv))).
  set (own := <["lastUpdatedBy" := VStr "verification-script"]>
                (<["lastUpdated" := VNum now2]> (own_props original))).
  destruct (restore_sent_stamp now2 original own eq_refl) as [Hstamp Hmode].
  assert (admission (VObj (omap Json.wire own)) stored = (clock srv <? now2)) as Hadm.
  { unfold admission, stored. rewrite Hstamp.
    rewrite prop_assign_same by done. by rewrite greater_num. }
  split; intros Hcmp.
  - rewrite simplified_post_kept by (rewrite Hadm; by apply Z.ltb_ge).
    unfold stored. rewrite prop_assign_other by done.
    apply update_sent_mode.
  - rewrite simplified_post_accept; [| done | rewrite Hadm; by apply Z.ltb_lt].
    cbn [snd]. rewrite prop_assign_other by done. rewrite Hmode.
    destruct (server_read srv) as [Hread _].
    destruct (Hread Hr) as (_ & Hempty & Hfull).
    subst original. unfold prop.
    destruct (truthy (currentState srv)) eqn:Ht.
    + by rewrite (wired_control_mode _ _ (Hfull eq_refl)).
    + by rewrite (Hempty eq_refl).
Qed.

End PersistenceTest.

(* --------------------------------------------------------------------- *)
(** ** The address panel of app/test/page.tsx                             *)
(* --------------------------------------------------------------------- *)

Section AddressPanel.
Import IpConfig.

Lemma string_app_cons x (a b : string) : String x a +:+ b = String x (a +:+ b).
Proof. reflexivity. Qed.

Lemma string_app_assoc (a b c : string) : (a +:+ b) +:+ c = a +:+ (b +:+ c).
Proof.
  induction a as [| x a IH]; [done |].
  rewrite !string_app_cons. f_equal. exact IH.
Qed.

Lemma string_app_nil_r (a : string) : a +:+ EmptyString = a.
Proof.
  induction a as [| x a IH]; [done |].
  rewrite string_app_cons. f_equal. exact IH.
Qed.

(** The backtracking matcher finds a match exactly when there is one:
    [accept r s k] succeeds when and only when [s] splits into a string
    that [r] matches and a rest that [k] accepts. *)
Lemma accept_matches r s k :
  accept r s k = true <->
  exists o rest, s = o +:+ rest /\ matches r o /\ k rest = true.
Proof.
  revert s k. induction r as [lo hi | r1 IH1 r2 IH2 | r1 IH1 r2 IH2 | r IH];
    intros s k; cbn [accept matches].
  - split.
    + destruct s as [| c s]; [discriminate |].
      intros [[Hlo Hhi]%andb_true_iff Hk]%andb_true_iff.
      apply Nat.leb_le in Hlo, Hhi.
      exists (String c EmptyString), s. split; [done |]. split; [| done].
      by exists c.
    + intros (o & rest & -> & (c & -> & Hlo & Hhi) & Hk).
      change (String c EmptyString +:+ rest) with (String c rest).
      apply Nat.leb_le in Hlo, Hhi. cbv iota. by rewrite Hlo, Hhi, Hk.
  - rewrite IH1. split.
    + intros (o1 & rest1 & -> & H1 & (o2 & rest & -> & H2 & Hk)%IH2).
      exists (o1 +:+ o2), rest. rewrite string_app_assoc.
      split; [done |]. split; [| done]. by exists o1, o2.
    + intros (o & rest & -> & (o1 & o2 & -> & H1 & H2) & Hk).
      exists o1, (o2 +:+ rest). rewrite string_app_assoc.
      split; [done |]. split; [done |]. apply IH2. by exists o2, rest.
  - rewrite orb_true_iff, IH1, IH2. split.
    + intros [(o & rest & ? & ? & ?) | (o & rest & ? & ? & ?)];
        exists o, rest; auto.
    + intros (o & rest & ? & [? | ?] & ?); [left | right]; by exists o, rest.
  - rewrite orb_true_iff, IH. split.
    + intros [(o & rest & ? & ? & ?) | Hk].
      * exists o, rest. auto.
      * exists EmptyString, s. auto.
    + intros (o & rest & -> & [-> | ?] & ?); [by right | left].
      by exists o, rest.
Qed.

(** A class matches the one-character string of a character in range. *)
Ltac one c := exists c; split; [reflexivity | lia].

Lemma matches_octet o : matches octet o <-> is_octet o = true.
Proof.
  unfold octet, lit, digit. cbn [matches]. split.
  - intros H.
    repeat match goal with
           | H : _ \/ _ |- _ => destruct H
           | H : exists _, _ |- _ => destruct H
           | H : _ /\ _ |- _ => destruct H
           end; subst; cbv [String.append];
      unfold is_octet; cbn [String.length all_digits decimal]; unfold is_digit;
      rewrite ?andb_true_iff, ?Nat.leb_le; lia.
  - unfold is_octet. rewrite !andb_true_iff, !Nat.leb_le.
    intros [[[Hmin Hmax] Hdigits] Hvalue].
    destruct o as [| c1 [| c2 [| c3 [| c4 o]]]]; cbn in Hmin, Hmax; try lia.
    + cbn in Hdigits. unfold is_digit in Hdigits.
      rewrite ?andb_true_iff, ?Nat.leb_le in Hdigits.
      right. right. exists EmptyString, (String c1 EmptyString).
      split; [done |]. split; [by left |].
      exists (String c1 EmptyString), EmptyString.
      split; [done |]. split; [| by left]. one c1.
    + cbn in Hdigits. unfold is_digit in Hdigits.
      rewrite ?andb_true_iff, ?Nat.leb_le in Hdigits.
      right. right. exists EmptyString, (String c1 (String c2 EmptyString)).
      split; [done |]. split; [by left |].
      exists (String c1 EmptyString), (String c2 EmptyString).
      split; [done |]. split; [one c1 |]. right. one c2.
    + cbn in Hdigits, Hvalue. unfold is_digit in Hdigits.
      rewrite ?andb_true_iff, ?Nat.leb_le in Hdigits.
      assert ((code c1 <= 49)%nat
              \/ (code c1 = 50 /\ code c2 <= 52)%nat
              \/ (code c1 = 50 /\ code c2 = 53 /\ code c3 <= 53)%nat)
        as [Hc | [Hc | Hc]] by lia.
      * right. right.
        exists (String c1 EmptyString), (String c2 (String c3 EmptyString)).
        split; [done |]. split; [right; one c1 |].
        exists (String c2 EmptyString), (String c3 EmptyString).
        split; [done |]. split; [one c2 |]. right. one c3.
      * right. left.
        exists (String c1 EmptyString), (String c2 (String c3 EmptyString)).
        split; [done |]. split; [one c1 |].
        exists (String c2 EmptyString), (String c3 EmptyString).
        split; [done |]. split; [one c2 | one c3].
      * left.
        exists (String c1 EmptyString), (String c2 (String c3 EmptyString)).
        split; [done |]. split; [one c1 |].
        exists (String c2 EmptyString), (String c3 EmptyString).
        split; [done |]. split; [one c2 | one c3].
Qed.

Lemma matches_dot o : matches dot o <-> o = ".".
Proof.
  unfold dot, lit. cbn [matches]. split.
  - intros (c & -> & Hlo & Hhi). f_equal.
    assert (code c = 46%nat) as Hc by lia.
    rewrite <- (Ascii.ascii_nat_embedding c). unfold code in Hc. by rewrite Hc.
  - intros ->. exists (Ascii.ascii_of_nat 46). split; [done |]. by cbn.
Qed.

Lemma at_end_empty s : at_end s = true <-> s = EmptyString.
Proof. by destruct s. Qed.

Lemma accept_ip_pattern ip :
  validateIpAddress ip = true <->
  exists a b c d,
    ip = a +:+ "." +:+ b +:+ "." +:+ c +:+ "." +:+ d
    /\ is_octet a = true /\ is_octet b = true
    /\ is_octet c = true /\ is_octet d = true.
Proof.
  unfold validateIpAddress. rewrite accept_matches.
  unfold ipPattern. cbn [matches]. split.
  - intros (o & rest & -> & Hm & ->%at_end_empty).
    destruct Hm as (a & ? & -> & Ha%matches_octet
                    & ? & ? & -> & ->%matches_dot
                    & b & ? & -> & Hb%matches_octet
                    & ? & ? & -> & ->%matches_dot
                    & c & ? & -> & Hc%matches_octet
                    & ? & d & -> & ->%matches_dot & Hd%matches_octet).
    exists a, b, c, d. by rewrite string_app_nil_r.
  - intros (a & b & c & d & -> & Ha & Hb & Hc & Hd).
    exists (a +:+ "." +:+ b +:+ "." +:+ c +:+ "." +:+ d), EmptyString.
    split; [by rewrite string_app_nil_r |]. split; [| done].
    exists a, ("." +:+ b +:+ "." +:+ c +:+ "." +:+ d).
    split; [done |]. split; [by apply matches_octet |].
    exists ".", (b +:+ "." +:+ c +:+ "." +:+ d).
    split; [done |]. split; [by apply matches_dot |].
    exists b, ("." +:+ c +:+ "." +:+ d).
    split; [done |]. split; [by apply matches_octet |].
    exists ".", (c +:+ "." +:+ d).
    split; [done |]. split; [by apply matches_dot |].
    exists c, ("." +:+ d). split; [done |]. split; [by apply matches_octet |].
    exists ".", d. split; [done |]. split; [by apply matches_dot |].
    by apply matches_octet.
Qed.

(** What [validateIpAddress] accepts.  An address is accepted when and
    only when it is four groups separated by dots, nothing before, after
    or between, each group one to three decimal digits writing a number up
    to 255.  Leading zeros are accepted; signs, spaces and a trailing line
    feed are not. *)
Theorem ip_pattern_accepts_dotted_quads ip :
  validateIpAddress ip = true <->
  exists a b c d,
    ip = a +:+ "." +:+ b +:+ "." +:+ c +:+ "." +:+ d
    /\ is_octet a = true /\ is_octet b = true
    /\ is_octet c = true /\ is_octet d = true.
Proof. exact (accept_ip_pattern ip). Qed.

Lemma octets_pretty : forallb (fun n : nat => is_octet (pretty n)) (seq 0 256) = true.
Proof. vm_compute. reflexivity. Qed.

Lemma is_octet_pretty (n : nat) : (n <= 255)%nat -> is_octet (pretty n) = true.
Proof.
  intros Hn. pose proof octets_pretty as Hall.
  rewrite forallb_forall in Hall. apply Hall. apply in_seq. lia.
Qed.

(** No address in its usual writing is refused: four numbers up to 255,
    each written in decimal without leading zeros and joined by dots, pass
    [validateIpAddress]. *)
Theorem canonical_addresses_are_valid (n1 n2 n3 n4 : nat) :
  (n1 <= 255)%nat -> (n2 <= 255)%nat -> (n3 <= 255)%nat -> (n4 <= 255)%nat ->
  validateIpAddress
    (pretty n1 +:+ "." +:+ pretty n2 +:+ "." +:+ pretty n3 +:+ "." +:+ pretty n4)
  = true.
Proof.
  intros H1 H2 H3 H4. apply accept_ip_pattern.
  exists (pretty n1), (pretty n2), (pretty n3), (pretty n4).
  split; [done |]. repeat split; by apply is_octet_pretty.
Qed.

(** The loop of [validateAllIps] over entries with distinct keys: an error
    is set at the keys whose address is refused and nowhere else, and the
    flag stays up when no address is refused. *)
Lemma check_entries_fold (l : list (string * string)) (acc : gmap string string * bool) :
  NoDup (l.*1) ->
  let r := foldl (fun acc entry =>
                    if negb (validateIpAddress entry.2)
                    then (<[entry.1 := "Invalid IP address format"]> acc.1, false)
                    else acc) acc l in
  r.2 = acc.2 && forallb (fun entry => validateIpAddress entry.2) l
  /\ forall pole,
       r.1 !! pole
       = match (list_to_map l : gmap string string) !! pole with
         | Some ip =>
             if validateIpAddress ip then acc.1 !! pole
             else Some "Invalid IP address format"
         | None => acc.1 !! pole
         end.
Proof.
  revert acc. induction l as [| [k ip] l IH]; intros acc Hnd; cbv zeta.
  - cbn. split; [by rewrite andb_true_r |]. intros pole. by rewrite lookup_empty.
  - cbn [fmap list_fmap fst] in Hnd. apply NoDup_cons in Hnd as [Hk Hnd].
    cbn [foldl fst snd forallb list_to_map foldr uncurry].
    set (acc' := if negb (validateIpAddress ip)
                 then (<[k := "Invalid IP address format"]> acc.1, false)
                 else acc).
    destruct (IH acc' Hnd) as [IH1 IH2]. split.
    + rewrite IH1. unfold acc'. destruct (validateIpAddress ip); cbn; [done |].
      by rewrite andb_false_r.
    + intros pole. rewrite IH2.
      destruct (decide (k = pole)) as [<- | Hne].
      * rewrite lookup_insert_eq.
        rewrite (not_elem_of_list_to_map_1 l k Hk).
        unfold acc'. destruct (validateIpAddress ip); cbn; [done |].
        by rewrite lookup_insert_eq.
      * rewrite lookup_insert_ne by done.
        assert (acc'.1 !! pole = acc.1 !! pole) as ->; [| done].
        unfold acc'. destruct (validateIpAddress ip); cbn; [done |].
        by rewrite lookup_insert_ne.
Qed.

Lemma size_list_to_set_le (l : list string) :
  (size (list_to_set l : gset string) <= length l)%nat.
Proof.
  induction l as [| x l IH]; cbn; [by rewrite size_empty |].
  pose proof (size_union_alt {[x]} (list_to_set l : gset string)) as Hs.
  rewrite size_singleton in Hs.
  assert (size (list_to_set l ∖ {[x]} : gset string)
          <= size (list_to_set l : gset string))%nat as Hsub.
  { apply subseteq_size. apply subseteq_difference_l. reflexivity. }
  lia.
Qed.

Lemma size_list_to_set_NoDup (l : list string) :
  length l = size (list_to_set l : gset string) <-> NoDup l.
Proof.
  split; [| intros Hnd; symmetry; by apply size_list_to_set].
  induction l as [| x l IH]; [constructor |].
  cbn [length list_to_set]. intros Hlen.
  pose proof (size_list_to_set_le l) as Hle.
  destruct (decide (x ∈ l)) as [Hin | Hout].
  - assert ({[x]} ∪ list_to_set l = (list_to_set l : gset string)) as Heq.
    { apply subseteq_union_1_L, singleton_subseteq_l.
      by apply elem_of_list_to_set. }
    rewrite Heq in Hlen. lia.
  - assert ({[x]} ## (list_to_set l : gset string)) as Hdisj.
    { apply disjoint_singleton_l. by rewrite elem_of_list_to_set. }
    rewrite size_union in Hlen by done.
    rewrite size_singleton in Hlen.
    apply NoDup_cons. split; [done |]. apply IH. lia.
Qed.

Lemma NoDup_values (m : gmap string string) :
  NoDup (map_to_list m).*2 <->
  forall pole1 pole2 ip, m !! pole1 = Some ip -> m !! pole2 = Some ip -> pole1 = pole2.
Proof.
  split.
  - intros Hnd pole1 pole2 ip H1 H2.
    apply elem_of_map_to_list in H1, H2.
    apply list_elem_of_lookup in H1 as [i Hi], H2 as [j Hj].
    assert (i = j) as ->.
    { eapply NoDup_lookup; [exact Hnd | |]; rewrite list_lookup_fmap.
      - by rewrite Hi.
      - by rewrite Hj. }
    congruence.
  - intros Hinj. apply NoDup_fmap_2_strong; [| apply NoDup_map_to_list].
    intros [k1 v1] [k2 v2] H1%elem_of_map_to_list H2%elem_of_map_to_list Hv.
    cbn in Hv. subst v2. f_equal. by eapply Hinj.
Qed.

(** When the panel lets a configuration through.  [validateAllIps]
    returns [true] when and only when every address passes
    [validateIpAddress] and no two boards have the same address.  It sets
    an error at each board whose address is refused and at no other, and
    [handleSave] opens the confirmation dialog only on [true], without
    touching the addresses. *)
Theorem save_needs_valid_distinct_addresses p :
  let valid := (validateAllIps p).2 in
  let p' := (validateAllIps p).1 in
  (valid = true <->
   (forall pole ip, ipAddresses p !! pole = Some ip -> validateIpAddress ip = true)
   /\ (forall pole1 pole2 ip,
         ipAddresses p !! pole1 = Some ip -> ipAddresses p !! pole2 = Some ip ->
         pole1 = pole2))
  /\ (forall pole,
        validationErrors p' !! pole
        = match ipAddresses p !! pole with
          | Some ip =>
              if validateIpAddress ip then None
              else Some "Invalid IP address format"
          | None => None
          end)
  /\ confirmDialogOpen (handleSave p) = valid || confirmDialogOpen p
  /\ ipAddresses (handleSave p) = ipAddresses p.
Proof.
  cbv zeta. unfold handleSave, validateAllIps, check_entries.
  pose proof (check_entries_fold (map_to_list (ipAddresses p)) (∅, true)
                (NoDup_fst_map_to_list _)) as [Hflag Herr].
  cbv zeta in Hflag, Herr.
  destruct (foldl _ (∅, true) (map_to_list (ipAddresses p))) as [errors isValid].
  cbn [fst snd] in *. rewrite list_to_map_to_list in Herr.
  split; [| split; [| split]].
  - rewrite <- NoDup_values, <- size_list_to_set_NoDup.
    case_bool_decide as Hdup.
    + split; [done |]. intros [_ Hlen]. by destruct Hdup.
    + rewrite Hflag. cbn [andb].
      rewrite forallb_forall. split.
      * intros Hall. split; [| done]. intros pole ip Hin.
        apply (Hall (pole, ip)). apply list_elem_of_In. by apply elem_of_map_to_list.
      * intros [Hall _] [pole ip] Hin. apply (Hall pole).
        apply elem_of_map_to_list. by apply list_elem_of_In.
  - intros pole. rewrite Herr, lookup_empty. by destruct (ipAddresses p !! pole).
  - case_bool_decide; cbn; [done |]. by destruct isValid.
  - case_bool_decide; cbn; [done |]. by destruct isValid.
Qed.

End AddressPanel.

(* --------------------------------------------------------------------- *)
(** ** The engine over an adapter that keeps what it saves                *)
(* --------------------------------------------------------------------- *)

Section OverDurable.
Context `{!Builtins} {S : Type} `{!DbAdapter S} `{!Durable S}.

(** Polling after a publish is silent.  Over an adapter that reads back
    what it saved, the polling tick that follows a successful
    [updateStateAndPublish] reads the engine's own document, finds it no
    newer, keeps the engine as it is and calls no subscriber a second
    time. *)
Theorem poll_after_publish_is_silent partialState now this (s : S) :
  let published := updateStateAndPublish partialState now this s in
  published.1.1.1 = true ->
  fetchState published.1.1.2 published.1.2 = (published.1.1.2, []).
Proof.
  cbv zeta. unfold updateStateAndPublish.
  set (newState := VObj (<["lastUpdatedBy" := VStr (clientId this)]>
                           (<["lastUpdated" := VNum now]>
                              (own_props partialState ∪ own_props (state this))))).
  destruct (saveState s newState) as [[] s'] eqn:Hs; cbn [negb fst snd];
    [| discriminate].
  intros _. unfold fetchState. rewrite (read_after_save _ _ _ Hs).
  cbn [truthy newState]. apply guarded_not_newer. apply greater_irrefl.
Qed.

End OverDurable.

(* --------------------------------------------------------------------- *)
(** ** The engine over LocalStorageAdapter                                *)
(* --------------------------------------------------------------------- *)

Section InTheBrowser.
Context `{!Builtins}.
Import LocalStorage.

Lemma wire_keeps_number own k n :
  own !! k = Some (VNum n) -> prop (VObj (omap Json.wire own)) k = VNum n.
Proof. intros Hk. by rewrite prop_wire_object, Hk. Qed.

(** A publish over [LocalStorageAdapter].  In a browser whose storage can
    be written, [updateStateAndPublish] returns [true] and the item holds
    the engine's new document, whatever the item held before: the adapter
    compares no stamps.  The polling tick that follows reads that document
    back through JSON, finds it no newer than the engine's, keeps the
    engine as it is and calls no subscriber. *)
Theorem local_publish_then_poll partialState now this (b : browser) :
  writable b = true ->
  let published := updateStateAndPublish partialState now this b in
  published.1.1.1 = true
  /\ item published.1.2 = Some (state published.1.1.2)
  /\ fetchState published.1.1.2 published.1.2 = (published.1.1.2, []).
Proof.
  intros Hw. cbv zeta. unfold updateStateAndPublish.
  set (own := <["lastUpdatedBy" := VStr (clientId this)]>
                (<["lastUpdated" := VNum now]>
                   (own_props partialState ∪ own_props (state this)))).
  cbn [Adapter.saveState browser_adapter]. unfold saveState. rewrite Hw.
  cbn [negb fst snd]. split; [done |]. split; [done |].
  unfold fetchState. cbn [Adapter.getState browser_adapter]. unfold getState.
  cbn [readable item]. destruct (readable b); cbn [negb]; [| done].
  cbn [Json.wire default truthy]. apply guarded_not_newer.
  cbn [state with_state]. unfold id.
  assert (own !! "lastUpdated" = Some (VNum now)) as Hk.
  { unfold own. by rewrite lookup_insert_ne, lookup_insert_eq by done. }
  rewrite (wire_keeps_number _ _ _ Hk).
  unfold prop at 1. cbn [own_props]. rewrite Hk. cbn. apply Z.ltb_irrefl.
Qed.

End InTheBrowser.

(* --------------------------------------------------------------------- *)
(** ** The further properties at concrete inputs                          *)
(* --------------------------------------------------------------------- *)

Lemma document_never_nullish_witness :
  let engine := create "client_a" 1000 in
  let later := [Initialize; Publish (object [("controlMode", VStr "manual")]) 2000;
                SseMessage (Some VNull)] in
  nullish (state engine) = false
  /\ nullish (state (@run unconsulted volatile _ later engine VNull).1.1) = false.
Proof.
  cbv zeta. split; [reflexivity |].
  apply (@document_never_nullish unconsulted volatile _). reflexivity.
Defined.

Lemma every_change_is_announced_witness :
  let engine := with_callbacks [7%nat] (create "client_a" 1000) in
  let a := SseMessage (Some (document "manual" 2000)) in
  (7%nat, document "manual" 2000) ∈ calls (@step unconsulted volatile _ a engine VNull).2
  /\ document "manual" 2000 = state (@step unconsulted volatile _ a engine VNull).1.1.
Proof.
  cbv zeta.
  assert ((7%nat, document "manual" 2000)
          ∈ calls (@step unconsulted volatile _
                     (SseMessage (Some (document "manual" 2000)))
                     (with_callbacks [7%nat] (create "client_a" 1000)) VNull).2) as Hin
    by apply list_elem_of_here.
  split; [exact Hin |].
  exact (proj1 (@every_change_is_announced unconsulted volatile _ _ _ _) _ _ Hin).
Defined.

Lemma subscribers_are_kept_witness :
  let engine := with_callbacks [7%nat; 8%nat] (create "client_a" 1000) in
  let later := [Initialize; UpdateConfig (Some "client_b"); Tick;
                Publish (object [("controlMode", VStr "manual")]) 2000] in
  Forall (fun a => ~ registration a) later
  /\ onStateChangeCallbacks (@run unconsulted volatile _ later engine VNull).1.1
     = [7%nat; 8%nat].
Proof.
  cbv zeta.
  assert (Forall (fun a => ~ registration a)
            [Initialize; UpdateConfig (Some "client_b"); Tick;
             Publish (object [("controlMode", VStr "manual")]) 2000]) as Hl
    by (repeat constructor; intros []).
  split; [exact Hl |].
  exact (@subscribers_are_kept unconsulted volatile _ _
           (with_callbacks [7%nat; 8%nat] (create "client_a" 1000)) VNull Hl).
Defined.

Lemma deaf_without_stamp_witness :
  let engine := with_state (object []) (with_callbacks [7%nat] (create "client_a" 1000)) in
  let later := [SseMessage (Some (document "manual" 2000)); Tick] in
  prop (state engine) "lastUpdated" = VUndefined
  /\ Forall remote later
  /\ @run unconsulted volatile _ later engine (document "semi" 3000)
     = (engine, document "semi" 3000, []).
Proof.
  cbv zeta. split; [reflexivity |].
  assert (Forall remote [SseMessage (Some (document "manual" 2000)); Tick]) as Hl
    by (repeat constructor).
  split; [exact Hl |].
  apply (@deaf_without_stamp unconsulted volatile _); [reflexivity | exact Hl].
Defined.

Lemma double_registration_witness :
  let engine := with_callbacks [8%nat] (create "client_a" 1000) in
  (7%nat ∉ onStateChangeCallbacks engine)
  /\ onStateChangeCallbacks
       ((onStateChange 7%nat (onStateChange 7%nat engine).1.1).2
          (onStateChange 7%nat (onStateChange 7%nat engine).1.1).1.1)
     = [8%nat].
Proof.
  cbv zeta.
  assert (7%nat ∉ onStateChangeCallbacks (with_callbacks [8%nat] (create "client_a" 1000)))
    as Hout.
  { cbn. intros Hin%list_elem_of_singleton. discriminate. }
  split; [exact Hout |].
  exact (proj1 (proj2 (double_registration 7%nat _ Hout))).
Defined.

Lemma server_save_result_witness :
  let srv := {| ServerStorage.reachable := true; ServerStorage.clock := 5000;
                ServerStorage.currentState := document "manual" 2000 |} in
  @admission unconsulted (document "semi" 1500) (ServerStorage.currentState srv) = false
  /\ @ServerStorage.saveState unconsulted srv (document "semi" 1500) = (true, srv).
Proof.
  cbv zeta. split; [reflexivity |].
  apply (proj2 (@server_save_result unconsulted _ (document "semi" 1500))
           (document "semi" 1500));
    reflexivity.
Defined.

Lemma server_read_is_truthy_witness :
  let srv := {| ServerStorage.reachable := true; ServerStorage.clock := 5000;
                ServerStorage.currentState := VNull |} in
  ServerStorage.reachable srv = true
  /\ truthy (ServerStorage.getState srv) = true.
Proof.
  cbv zeta. split; [reflexivity |].
  apply (proj1 (server_read_is_truthy _)). reflexivity.
Defined.

Lemma server_round_trip_witness :
  let srv := {| ServerStorage.reachable := true; ServerStorage.clock := 5000;
                ServerStorage.currentState := VNull |} in
  let own : gmap string value := {[ "controlMode" := VStr "manual" ]} in
  @admission unconsulted (VObj (omap Json.wire own)) (ServerStorage.currentState srv) = true
  /\ ServerStorage.getState
       (@ServerStorage.saveState unconsulted srv (VObj own)).2
     = VObj (<["lastUpdated" := VNum 5000]> (omap Json.wire own)).
Proof.
  cbv zeta. split; [reflexivity |].
  apply (@server_round_trip unconsulted
           {| ServerStorage.reachable := true; ServerStorage.clock := 5000;
              ServerStorage.currentState := VNull |}
           {[ "controlMode" := VStr "manual" ]});
    reflexivity.
Defined.

Lemma initialize_against_empty_endpoint_witness :
  let srv := {| ServerStorage.reachable := true; ServerStorage.clock := 5000;
                ServerStorage.currentState := VNull |} in
  let engine := create "client_a" 1000 in
  (isInitialized engine = false /\ ServerStorage.reachable srv = true
   /\ truthy (ServerStorage.currentState srv) = false)
  /\ state (@initialize _ (@ServerStorage.server_adapter unconsulted) engine srv).1
     = object [].
Proof.
  cbv zeta. split; [repeat split |].
  apply (@initialize_against_empty_endpoint unconsulted); reflexivity.
Defined.

Lemma reported_publish_can_be_lost_witness :
  let srv := {| ServerStorage.reachable := true; ServerStorage.clock := 5000;
                ServerStorage.currentState := document "manual" 4000 |} in
  let engine := create "client_a" 1000 in
  (3000 <= 4000)
  /\ (@updateStateAndPublish unconsulted _ (@ServerStorage.server_adapter unconsulted)
        (object [("controlMode", VStr "semi")]) 3000 engine srv).1.1.1
     = true
  /\ (@updateStateAndPublish unconsulted _ (@ServerStorage.server_adapter unconsulted)
        (object [("controlMode", VStr "semi")]) 3000 engine srv).1.2
     = srv.
Proof.
  cbv zeta. split; [lia |].
  pose proof (@reported_publish_can_be_lost unconsulted
                (object [("controlMode", VStr "semi")]) 3000 (create "client_a" 1000)
                {| ServerStorage.reachable := true; ServerStorage.clock := 5000;
                   ServerStorage.currentState := document "manual" 4000 |}
                (list_to_map [("controlMode", VStr "manual"); ("lastUpdated", VNum 4000)])
                4000 eq_refl eq_refl eq_refl ltac:(lia)) as (H1 & H2 & _).
  split; [exact H1 | exact H2].
Defined.

Lemma route_cannot_create_first_document_witness :
  let srv := {| ServerStorage.reachable := true; ServerStorage.clock := 5000;
                ServerStorage.currentState := VNull |} in
  truthy (ServerStorage.currentState srv) = false
  /\ (@Route.POST unconsulted _ (@ServerStorage.server_adapter unconsulted) []
        (Some (document "manual" 2000)) 6000 srv).1.2
     = srv.
Proof.
  cbv zeta. split; [reflexivity |].
  apply (@route_cannot_create_first_document unconsulted). reflexivity.
Defined.

Lemma persistence_test_result_witness :
  let srv := {| ServerStorage.reachable := true; ServerStorage.clock := 5000;
                ServerStorage.currentState := document "auto" 4000 |} in
  ServerStorage.reachable srv = true
  /\ (@Verify.testStatePersistence unconsulted 3000 3100 5100 srv).1
     = (negb (truthy (ServerStorage.currentState srv))
        || @greater unconsulted (VNum 3000)
             (prop (ServerStorage.currentState srv) "lastUpdated")).
Proof.
  cbv zeta. split; [reflexivity |].
  apply (proj1 (@persistence_test_result unconsulted 3000 3100 5100 _)).
  reflexivity.
Defined.

Lemma persistence_test_can_leave_mode_toggled_witness :
  let srv := {| ServerStorage.reachable := true; ServerStorage.clock := 5000;
                ServerStorage.currentState := document "auto" 1000 |} in
  (ServerStorage.reachable srv = true
   /\ (@Verify.testStatePersistence unconsulted 4000 4100 5100 srv).1 = true
   /\ 4100 <= ServerStorage.clock srv)
  /\ prop (ServerStorage.currentState
             (@Verify.testStatePersistence unconsulted 4000 4100 5100 srv).2)
          "controlMode"
     = VStr "manual".
Proof.
  cbv zeta. split; [split; [reflexivity | split; [reflexivity | cbn; lia]] |].
  apply (proj1 (@persistence_test_can_leave_mode_toggled unconsulted 4000 4100 5100
                  {| ServerStorage.reachable := true; ServerStorage.clock := 5000;
                     ServerStorage.currentState := document "auto" 1000 |}
                  eq_refl eq_refl)).
  cbn. lia.
Defined.

Lemma ip_pattern_accepts_dotted_quads_witness :
  IpConfig.validateIpAddress "192.168.1.6" = true
  /\ exists a b c d,
       "192.168.1.6" = a +:+ "." +:+ b +:+ "." +:+ c +:+ "." +:+ d
       /\ is_octet a = true /\ is_octet b = true
       /\ is_octet c = true /\ is_octet d = true.
Proof.
  split; [reflexivity |].
  apply (proj1 (ip_pattern_accepts_dotted_quads "192.168.1.6")). reflexivity.
Defined.

Lemma canonical_addresses_are_valid_witness :
  IpConfig.validateIpAddress
    (pretty 192%nat +:+ "." +:+ pretty 168%nat +:+ "." +:+ pretty 1%nat
     +:+ "." +:+ pretty 13%nat)
  = true.
Proof. apply canonical_addresses_are_valid; lia. Defined.

Lemma save_needs_valid_distinct_addresses_witness :
  let p := {| IpConfig.ipAddresses := {[ "P1A" := "192.168.1.6"; "P1B" := "192.168.1.7" ]};
              IpConfig.validationErrors := ∅;
              IpConfig.confirmDialogOpen := false;
              IpConfig.toasts := [] |} in
  (IpConfig.validateAllIps p).2 = true
  /\ forall pole ip,
       IpConfig.ipAddresses p !! pole = Some ip -> IpConfig.validateIpAddress ip = true.
Proof.
  cbv zeta.
  assert ((IpConfig.validateAllIps
             {| IpConfig.ipAddresses := {[ "P1A" := "192.168.1.6"; "P1B" := "192.168.1.7" ]};
                IpConfig.validationErrors := ∅;
                IpConfig.confirmDialogOpen := false;
                IpConfig.toasts := [] |}).2 = true) as Hv by (vm_compute; reflexivity).
  split; [exact Hv |].
  exact (proj1 (proj1 (proj1 (save_needs_valid_distinct_addresses _)) Hv)).
Defined.

Lemma poll_after_publish_is_silent_witness :
  let engine := with_callbacks [7%nat] (create "client_a" 1000) in
  let published :=
    @updateStateAndPublish unconsulted volatile _
      (object [("controlMode", VStr "manual")]) 2000 engine VNull in
  published.1.1.1 = true
  /\ @fetchState unconsulted volatile _ published.1.1.2 published.1.2
     = (published.1.1.2, []).
Proof.
  cbv zeta. split; [reflexivity |].
  apply (@poll_after_publish_is_silent unconsulted volatile _ _). reflexivity.
Defined.

Lemma local_publish_then_poll_witness :
  let b := {| LocalStorage.readable := true; LocalStorage.writable := true;
              LocalStorage.item := Some (document "manual" 9000) |} in
  let published :=
    @updateStateAndPublish unconsulted _ LocalStorage.browser_adapter
      (object [("controlMode", VStr "auto")]) 1000 (create "tab" 0) b in
  LocalStorage.item published.1.2 = Some (state published.1.1.2).
Proof.
  cbv zeta.
  apply (proj1 (proj2 (@local_publish_then_poll unconsulted
                         (object [("controlMode", VStr "auto")]) 1000
                         (create "tab" 0)
                         {| LocalStorage.readable := true;
                            LocalStorage.writable := true;
                            LocalStorage.item := Some (document "manual" 9000) |}
                         eq_refl))).
Defined.

(* --------------------------------------------------------------------- *)
(** ** The amended claims at concrete inputs                              *)
(* --------------------------------------------------------------------- *)

Lemma admission_monotone_within_clock_witness :
  let post r t cur := (@SimplifiedRoute.POST unconsulted (Some r) t cur).2 in
  let A := document "manual" 1000 in
  let B := document "semi" 2000 in
  let held := document "auto" 500 in
  let endpoint := {| ServerStorage.reachable := true; ServerStorage.clock := 7000;
                     ServerStorage.currentState := held |} in
  (stamp A = Some 1000 /\ stamp B = Some 2000 /\ 1000 < 2000
   /\ stamp held = Some 500 /\ 500 < 1000)
  /\ post B 1600 (post A 1500 held) = assign B "lastUpdated" (VNum 1600)
  /\ post A 2600 (post B 2500 held) = assign B "lastUpdated" (VNum 2500)
  /\ (stamp (@Adapter.getState _ (@ServerStorage.server_adapter unconsulted) endpoint)
      = Some 500
      /\ @Route.POST unconsulted _ (@ServerStorage.server_adapter unconsulted) []
           (Some A) 6000 endpoint
         = (json (object [("success", VBool true);
                          ("state", assign A "lastUpdated" (VNum 6000))]),
            ServerStorage.with_currentState
              (assign A "lastUpdated" (VNum 7000)) endpoint, [])).
Proof.
  cbv zeta.
  split; [repeat split; (reflexivity || lia) |]. split; [| split].
  3: { split; [reflexivity |].
       apply (proj1 (proj2 (proj2 (proj2
         (@admission_monotone_within_clock unconsulted ServerStorage.server
            (@ServerStorage.server_adapter unconsulted)
            (document "manual" 1000) (document "semi" 2000) 1000 2000 1500 1600
            (document "auto" 500) eq_refl eq_refl eq_refl eq_refl eq_refl
            (or_intror (ex_intro _ 500 (conj eq_refl eq_refl))))))
         [] {| ServerStorage.reachable := true; ServerStorage.clock := 7000;
               ServerStorage.currentState := document "auto" 500 |}
         (document "manual" 1000) 1000 500 6000 eq_refl eq_refl eq_refl));
       lia. }
  - apply (@admission_monotone_within_clock unconsulted ServerStorage.server
             (@ServerStorage.server_adapter unconsulted)
             (document "manual" 1000) (document "semi" 2000) 1000 2000 1500 1600
             (document "auto" 500));
      [reflexivity | reflexivity | reflexivity | reflexivity | lia
      | right; exists 500; split; [reflexivity | lia] | lia].
  - apply (@admission_monotone_within_clock unconsulted ServerStorage.server
             (@ServerStorage.server_adapter unconsulted)
             (document "manual" 1000) (document "semi" 2000) 1000 2000 2500 2600
             (document "auto" 500));
      [reflexivity | reflexivity | reflexivity | reflexivity | lia
      | right; exists 500; split; [reflexivity | lia] | lia].
Defined.


(** C8 fails as stated.  simplified-route.ts takes
    [{controlMode:"manual", lastUpdated:2000}] while its clock reads 5000
    and then [{controlMode:"semi", lastUpdated:6000}] while its clock
    reads 1000: the second is admitted, 6000 being greater than 5000, and
    the stored stamp falls from 5000 to 1000.  The same happens behind
    route.ts: the endpoint of its adapter stamps 5000 and then, its clock
    reading 1000 while that of route.ts reads 6000, stamps 1000. *)
Lemma stored_stamp_can_fall :
  let first := (Some (document "manual" 2000), 5000) in
  let second := (Some (document "semi" 6000), 1000) in
  let before := @requests unconsulted [first] SimplifiedRoute.initial in
  let after := @requests unconsulted [first; second] SimplifiedRoute.initial in
  let endpoint := {| ServerStorage.reachable := true; ServerStorage.clock := 0;
                     ServerStorage.currentState := document "auto" 100 |} in
  let relayed_before :=
    @relayed unconsulted [] [(Some (document "manual" 2000), 5000, 5000)] endpoint in
  let relayed_after :=
    @relayed unconsulted []
      [(Some (document "manual" 2000), 5000, 5000);
       (Some (document "semi" 9000), 6000, 1000)] endpoint in
  (stamp before = Some 5000
   /\ @admission unconsulted (document "semi" 6000) before = true
   /\ stamp after = Some 1000
   /\ ~ not_older before after)
  /\ (stamp (ServerStorage.currentState relayed_before) = Some 5000
      /\ stamp (ServerStorage.currentState relayed_after) = Some 1000
      /\ ~ not_older (ServerStorage.currentState relayed_before)
                     (ServerStorage.currentState relayed_after)).
Proof.
  cbv zeta. split.
  - split; [reflexivity |]. split; [reflexivity |]. split; [reflexivity |].
    intros Hno. destruct (Hno 5000 eq_refl) as (m & Hm & Hle).
    vm_compute in Hm. injection Hm as <-. lia.
  - split; [reflexivity |]. split; [reflexivity |].
    intros Hno. destruct (Hno 5000 eq_refl) as (m & Hm & Hle).
    vm_compute in Hm. injection Hm as <-. lia.
Qed.

Lemma held_stamp_never_decreases_witness :
  let engine := create "client_a" 1000 in
  let endpoint := {| ServerStorage.reachable := true; ServerStorage.clock := 0;
                     ServerStorage.currentState := document "auto" 100 |} in
  let relayed_requests := [(Some (document "manual" 2000), 5000, 5000)]
                          ++ [(Some (document "semi" 9000), 6500, 6000)] in
  Forall typed ([document "manual" 2000] ++ [document "semi" 1500])
  /\ not_older
       (state (@deliveries unconsulted [document "manual" 2000] engine))
       (state (@deliveries unconsulted
                 ([document "manual" 2000] ++ [document "semi" 1500]) engine))
  /\ ticking 0 ([(Some (document "manual" 2000), 5000)]
                ++ [(Some (document "semi" 1500), 6000)])
  /\ not_older
       (@requests unconsulted [(Some (document "manual" 2000), 5000)]
          SimplifiedRoute.initial)
       (@requests unconsulted
          ([(Some (document "manual" 2000), 5000)]
           ++ [(Some (document "semi" 1500), 6000)])
          SimplifiedRoute.initial)
  /\ (ticking 100 (endpoint_readings relayed_requests)
      /\ stamped_by 100 (ServerStorage.currentState endpoint))
  /\ not_older
       (ServerStorage.currentState
          (@relayed unconsulted [] [(Some (document "manual" 2000), 5000, 5000)]
             endpoint))
       (ServerStorage.currentState
          (@relayed unconsulted [] relayed_requests endpoint)).
Proof.
  cbv zeta.
  assert (Forall typed ([document "manual" 2000] ++ [document "semi" 1500])) as Ht.
  { constructor; [right; eexists; reflexivity |].
    constructor; [right; eexists; reflexivity | constructor]. }
  assert (ticking 0 ([(Some (document "manual" 2000), 5000)]
                     ++ [(Some (document "semi" 1500), 6000)])) as Hc.
  { cbn. lia. }
  assert (ticking 100
            (endpoint_readings
               ([(Some (document "manual" 2000), 5000, 5000)]
                ++ [(Some (document "semi" 9000), 6500, 6000)]))) as Hc'.
  { cbn. lia. }
  assert (stamped_by 100
            (ServerStorage.currentState
               {| ServerStorage.reachable := true; ServerStorage.clock := 0;
                  ServerStorage.currentState := document "auto" 100 |})) as Hs.
  { intros n Hn. vm_compute in Hn. injection Hn as <-. lia. }
  pose proof (@held_stamp_never_decreases unconsulted ServerStorage.server
                (@ServerStorage.server_adapter unconsulted) [])
    as (_ & _ & _ & Hd & _ & Hr & Hrel).
  split; [exact Ht |]. split; [by apply Hd |]. split; [exact Hc |].
  split; [apply (Hr _ _ 0); [exact Hc |]; intros n Hn; discriminate |].
  split; [by split |].
  by apply (Hrel _ _ 100).
Defined.

(** C10 fails of route.ts as stated.  The endpoint behind the adapter of
    route.ts stores nothing and [[]] is posted to route.ts.  When the
    endpoint is reached the adapter reads [{}], so the array is not taken:
    it is answered 200 as it came, without a stamp, nothing is saved and
    [GET] afterwards returns [{}] as before.  When the endpoint is not
    reached the save fails and the answer is 500. *)
Lemma array_is_not_stored_by_route :
  let reached := {| ServerStorage.reachable := true; ServerStorage.clock := 7000;
                    ServerStorage.currentState := VNull |} in
  let unreached := {| ServerStorage.reachable := false; ServerStorage.clock := 7000;
                      ServerStorage.currentState := VNull |} in
  let post srv := @Route.POST unconsulted _ (@ServerStorage.server_adapter unconsulted) []
                    (Some (VArr [] ∅)) 6000 srv in
  let get srv := @Route.GET _ (@ServerStorage.server_adapter unconsulted) srv in
  (post reached = (json (object [("success", VBool true); ("state", VArr [] ∅)]),
                   reached, [])
   /\ get reached = json (object [])
   /\ get (post reached).1.2 = json (object []))
  /\ post unreached = (failure 500 "Failed to update state", unreached, []).
Proof. repeat split. Qed.

Lemma array_body_is_candidate_witness :
  let srv := {| ServerStorage.reachable := false; ServerStorage.clock := 7000;
                ServerStorage.currentState := VNull |} in
  truthy (@Adapter.getState _ (@ServerStorage.server_adapter unconsulted) srv) = false
  /\ @Route.POST unconsulted _ (@ServerStorage.server_adapter unconsulted) []
       (Some (VArr [] ∅)) 5000 srv
     = (failure 500 "Failed to update state", srv, []).
Proof.
  cbv zeta. split; [reflexivity |].
  apply (proj1 (proj2 (proj2 (proj2 (proj2 (proj2
    (@array_body_is_candidate unconsulted ServerStorage.server
       (@ServerStorage.server_adapter unconsulted) [] ∅ [] 5000)))))));
    reflexivity.
Defined.

(** A [lastUpdated] that cannot be converted: [{lastUpdated: {toString: 1}}]
    against a held document.  The comparison throws, both handlers answer
    500 and keep what they hold, [saveState] of [ServerStorageAdapter]
    returns [false], and an engine that is sent the document keeps its own
    and calls nobody. *)
Example unconvertible_stamp :
  let held := document "manual" 2000 in
  let body := object [("lastUpdated", object [("toString", VNum 1)])] in
  let srv := {| ServerStorage.reachable := true; ServerStorage.clock := 5000;
                ServerStorage.currentState := held |} in
  let engine := with_callbacks [7%nat] (create "client_a" 1000) in
  @GreaterThan unconsulted (prop body "lastUpdated") (prop held "lastUpdated") = None
  /\ @SimplifiedRoute.POST unconsulted (Some body) 5000 held
     = (failure 500 "Failed to update state", held)
  /\ @Route.POST unconsulted volatile _ [] (Some body) 5000 held
     = (failure 500 "Failed to update state", held, [])
  /\ @ServerStorage.saveState unconsulted srv body = (false, srv)
  /\ @sse_onmessage unconsulted (Some body) engine = (engine, []).
Proof. repeat split. Qed.
